(** * LLMengineer: the plan parser, the security validator and the staged executor

    A shallow embedding of [SecurityManager.validate_command],
    [ProjectArchitect._parse_plan] and [ProjectArchitect._execute_plan] of
    [src/main.py], with the properties of the plan parser and of the staged
    executor stated over it.

    Python [str] values are modelled by [string]: a character is a code point
    in the range 0..255 (Latin-1), which covers every marker, tag and deny-list
    pattern of the program.  [str.lower], [str.strip] and [str.isspace] are
    given on that range as CPython defines them. *)

From Stdlib Require Import Bool Arith List Ascii String Lia ZArith.
Import ListNotations.
Open Scope list_scope.
Open Scope string_scope.

Set Implicit Arguments.

(** ** Python string primitives *)

Module PyStr.

(** [c] has the Unicode property Uppercase, for a code point below 256:
    A-Z, and the Latin-1 capitals U+00C0..U+00DE without the sign U+00D7. *)
Definition is_upper (c : ascii) : bool :=
  let n := nat_of_ascii c in
  (((65 <=? n) && (n <=? 90)) || ((192 <=? n) && (n <=? 222) && negb (n =? 215)))%nat.

Definition lower_char (c : ascii) : ascii :=
  if is_upper c then ascii_of_nat (nat_of_ascii c + 32) else c.

(** [s.lower()] *)
Fixpoint lower (s : string) : string :=
  match s with
  | EmptyString => EmptyString
  | String c r => String (lower_char c) (lower r)
  end.

(** [c.isspace()] below 256: TAB..CR, FS..US, space, NEL and NBSP. *)
Definition is_space (c : ascii) : bool :=
  let n := nat_of_ascii c in
  (((9 <=? n) && (n <=? 13)) || ((28 <=? n) && (n <=? 32)) || (n =? 133) || (n =? 160))%nat.

(** [s.startswith(p)] *)
Fixpoint startswith (s p : string) : bool :=
  match p, s with
  | EmptyString, _ => true
  | String _ _, EmptyString => false
  | String a p', String b s' => Ascii.eqb a b && startswith s' p'
  end.

(** [p in s]: [p] occurs in [s] as a contiguous block. *)
Fixpoint contains (p s : string) : bool :=
  startswith s p ||
  match s with
  | EmptyString => false
  | String _ r => contains p r
  end.

(** [s[n:]] for [n >= 0] *)
Fixpoint drop (n : nat) (s : string) : string :=
  match n, s with
  | O, _ => s
  | S _, EmptyString => EmptyString
  | S m, String _ r => drop m r
  end.

(** [s.lstrip()], [s.rstrip()] and [s.strip()] *)
Fixpoint lstrip (s : string) : string :=
  match s with
  | EmptyString => EmptyString
  | String c r => if is_space c then lstrip r else s
  end.

Fixpoint rstrip (s : string) : string :=
  match s with
  | EmptyString => EmptyString
  | String c r =>
      match rstrip r with
      | EmptyString => if is_space c then EmptyString else String c EmptyString
      | t => String c t
      end
  end.

Definition strip (s : string) : string := rstrip (lstrip s).

(** The line feed, ['\n']. *)
Definition LF : ascii := ascii_of_nat 10.

(** [s.split(d)] for a one-character separator [d]: never empty, one more
    element than occurrences of [d] in [s]. *)
Fixpoint split_on (d : ascii) (s : string) : list string :=
  match s with
  | EmptyString => [EmptyString]
  | String c r =>
      if Ascii.eqb c d then EmptyString :: split_on d r
      else match split_on d r with
           | [] => [String c EmptyString]
           | l :: ls => String c l :: ls
           end
  end.

(** [d.join(ls)] for a one-character [d] *)
Fixpoint join_on (d : ascii) (ls : list string) : string :=
  match ls with
  | [] => EmptyString
  | l :: rest =>
      match rest with
      | [] => l
      | _ :: _ => l ++ String d (join_on d rest)
      end
  end.

(** [s.split(sep, 1)] for a non-empty [sep]: cut at the leftmost occurrence
    of [sep], or the one-element list [[s]] when there is none. *)
Fixpoint split1 (sep s : string) : list string :=
  if startswith s sep then [EmptyString; drop (String.length sep) s]
  else match s with
       | EmptyString => [EmptyString]
       | String c r =>
           match split1 sep r with
           | [a; b] => [String c a; b]
           | _ => [s]
           end
       end.

End PyStr.

Import PyStr.

(** ** The security validator *)

Module SecurityManager.

Definition DANGEROUS_PATTERNS : list string :=
  [ "rm -rf"; "sudo"; "chmod"; "chown"; "> /dev"; "dd"; "mkfs"; "passwd";
    "mv /*"; "> /dev/sd" ].

(** The [for pattern in ...: if pattern in command.lower(): return False, ...]
    loop of [validate_command], over the patterns still to be tried. *)
Fixpoint validate_loop (patterns : list string) (command : string) : bool * string :=
  match patterns with
  | [] => (true, "Command validated")
  | pattern :: rest =>
      if contains pattern (lower command)
      then (false, "Dangerous command detected: " ++ command)
      else validate_loop rest command
  end.

Definition validate_command (command : string) : bool * string :=
  validate_loop DANGEROUS_PATTERNS command.

End SecurityManager.

(** ** The plan parser *)

(** A Python exception, by the text [str(e)] the handlers format into their
    log lines. *)
Inductive PyExc : Type :=
| Exc (msg : string).

Definition str_of_exc (e : PyExc) : string :=
  match e with Exc msg => msg end.

(** The tuple assignment [a, b = l]. *)
Definition unpack2 (l : list string) : PyExc + (string * string) :=
  match l with
  | [a; b] => inr (a, b)
  | [] => inl (Exc "not enough values to unpack (expected 2, got 0)")
  | [_] => inl (Exc "not enough values to unpack (expected 2, got 1)")
  | _ => inl (Exc "too many values to unpack (expected 2)")
  end.

Record FileArtifact : Type := mkFile { path : string; content : string }.

Record ExecutionPlan : Type := mkPlan {
  files : list FileArtifact;
  commands : list string;
  dependencies : list string
}.

(** [self.project_config] holds only one key the executor reads, ['name'];
    [None] stands for a dictionary without that key. *)
Record ProjectConfig : Type := mkConfig { name : option string }.

Record ProjectArchitect : Type := mkArchitect {
  project_config : ProjectConfig;
  execution_plan : ExecutionPlan
}.

(** A record handed to [logger.error]. *)
Inductive LogRecord : Type :=
| LogError (msg : string).

Module Parser.

(** The values [current_section] takes; Python's [None] is [None]. *)
Inductive SectionName : Type := SecFiles | SecCommands | SecDependencies.

Definition section_eqb (a b : SectionName) : bool :=
  match a, b with
  | SecFiles, SecFiles | SecCommands, SecCommands
  | SecDependencies, SecDependencies => true
  | _, _ => false
  end.

Definition in_section (cur : option SectionName) (s : SectionName) : bool :=
  match cur with
  | Some c => section_eqb c s
  | None => false
  end.

(** What the loop of [_parse_plan] carries from one line to the next. *)
Record ParseState : Type := mkState {
  current_section : option SectionName;
  plan : ExecutionPlan;
  log : list LogRecord
}.

Definition set_section (st : ParseState) (s : SectionName) : ParseState :=
  mkState (Some s) (plan st) (log st).

Definition append_file (st : ParseState) (f : FileArtifact) : ParseState :=
  mkState (current_section st)
          (mkPlan (files (plan st) ++ [f])%list (commands (plan st)) (dependencies (plan st)))
          (log st).

Definition append_command (st : ParseState) (c : string) : ParseState :=
  mkState (current_section st)
          (mkPlan (files (plan st)) (commands (plan st) ++ [c])%list (dependencies (plan st)))
          (log st).

Definition append_dependency (st : ParseState) (d : string) : ParseState :=
  mkState (current_section st)
          (mkPlan (files (plan st)) (commands (plan st)) (dependencies (plan st) ++ [d])%list)
          (log st).

Definition logger_error (st : ParseState) (msg : string) : ParseState :=
  mkState (current_section st) (plan st) (log st ++ [LogError msg])%list.

(** The body of the [try] of the [FILE:] branch: the new entry, or the
    exception raised by the tuple assignment. *)
Definition parse_file_entry (line : string) : PyExc + FileArtifact :=
  let content := drop 6 line in
  match unpack2 (split1 " => " content) with
  | inr (path, file_content) => inr (mkFile (strip path) (strip file_content))
  | inl e => inl e
  end.

(** One iteration of the [for line in response.split('\n')] loop. *)
Definition parse_line (st : ParseState) (raw : string) : ParseState :=
  let line := strip raw in
  if startswith line "// FILES" then set_section st SecFiles
  else if startswith line "// COMMANDS" then set_section st SecCommands
  else if startswith line "// DEPS" then set_section st SecDependencies
  else if in_section (current_section st) SecFiles && startswith line "FILE:" then
    match parse_file_entry line with
    | inr f => append_file st f
    | inl e =>
        logger_error st ("Error parsing file line: " ++ line ++ " - " ++ str_of_exc e)
    end
  else if in_section (current_section st) SecCommands && startswith line "SHELL:" then
    append_command st (strip (drop 7 line))
  else if in_section (current_section st) SecDependencies && startswith line "PKG:" then
    append_dependency st (strip (drop 5 line))
  else st.

Definition parse_lines (st : ParseState) (lines : list string) : ParseState :=
  fold_left parse_line lines st.

(** The state the loop starts from: a fresh plan, no section, nothing logged. *)
Definition initial : ParseState :=
  mkState None (mkPlan [] [] []) [].

Definition parse (response : string) : ParseState :=
  parse_lines initial (split_on LF response).

(** [self._parse_plan(response)]: the object after the call, and the records
    logged during it. *)
Definition _parse_plan (self : ProjectArchitect) (response : string)
  : ProjectArchitect * list LogRecord :=
  let st := parse response in
  (mkArchitect (project_config self) (plan st), log st).

End Parser.

(** ** Paths *)

(** [pathlib.Path] on a POSIX system: an anchor ([""] for a relative path,
    ["/"] or ["//"] otherwise) and the names below it.  Parsing drops empty
    segments and ["."] segments and keeps [".."] segments. *)
Module Pathlib.

Record Path : Type := mkPath { anchor : string; parts : list string }.

Definition SLASH : ascii := ascii_of_nat 47.

Fixpoint leading_slashes (s : string) : nat :=
  match s with
  | EmptyString => 0
  | String c r => if Ascii.eqb c SLASH then S (leading_slashes r) else 0
  end.

(** The root [posixpath.splitroot] finds: exactly two leading slashes are
    kept, any other positive number collapses to one. *)
Definition root_of (s : string) : string :=
  match leading_slashes s with
  | 0 => ""
  | 2 => "//"
  | _ => "/"
  end.

Definition is_name (seg : string) : bool :=
  negb (String.eqb seg "" || String.eqb seg ".").

(** [Path(s)] *)
Definition of_string (s : string) : Path :=
  mkPath (root_of s) (filter is_name (split_on SLASH s)).

Definition is_absolute (p : Path) : bool :=
  negb (String.eqb (anchor p) "").

(** [a / s]: an absolute right operand replaces the left one. *)
Definition joinpath (a : Path) (s : string) : Path :=
  let b := of_string s in
  if is_absolute b then b
  else mkPath (anchor a) (parts a ++ parts b)%list.

(** [p.parent] *)
Definition parent (p : Path) : Path :=
  mkPath (anchor p) (removelast (parts p)).

(** The directory walk the operating system makes for a path, when no
    component is a symbolic link: [".."] steps to the parent, and stays at
    the top of the file system there.  [dir] is the directory reached so
    far, innermost name first. *)
Fixpoint walk (dir : list string) (ps : list string) : list string :=
  match ps with
  | [] => dir
  | p :: rest =>
      if String.eqb p ".." then walk (tl dir) rest
      else walk (p :: dir) rest
  end.

(** Where [p] is, outermost name first, for a process whose working
    directory is [cwd]. *)
Definition locate (cwd : list string) (p : Path) : list string :=
  rev (walk (if is_absolute p then [] else rev cwd) (parts p)).

Fixpoint is_prefix (a b : list string) : bool :=
  match a, b with
  | [], _ => true
  | _ :: _, [] => false
  | x :: a', y :: b' => String.eqb x y && is_prefix a' b'
  end.

(** [target] is [root] or lies below it. *)
Definition inside (cwd : list string) (root target : Path) : bool :=
  is_prefix (locate cwd root) (locate cwd target).

(** A list of names that never steps above the directory it starts from:
    no prefix of it has more [".."] than other names. *)
Fixpoint stays_below (depth : nat) (ps : list string) : bool :=
  match ps with
  | [] => true
  | p :: rest =>
      if String.eqb p ".."
      then match depth with
           | 0 => false
           | S d => stays_below d rest
           end
      else stays_below (S depth) rest
  end.

(** A path string that is relative and never steps above its start. *)
Definition confined (s : string) : bool :=
  negb (is_absolute (of_string s)) && stays_below 0 (parts (of_string s)).

End Pathlib.

Import Pathlib.

(** ** The plan executor *)

(** [_execute_plan] acts on the file system, spawns processes, logs and
    drives a progress bar.  Its model threads a trace of the effects that
    took place, and asks a [World] for what the program cannot decide: which
    file-system calls and process launches raise, and the return code of a
    process.  The world answers from the trace so far, so it can stand for
    any environment. *)
Module Executor.

(** The three progress tasks, in the order [add_task] creates them. *)
Inductive Task : Type := FileTask | DepTask | CmdTask.

Inductive Event : Type :=
| EvMkdir (p : Path) (parents exist_ok : bool)  (* [p.mkdir(...)] returned *)
| EvWriteText (p : Path) (data : string)        (* [p.write_text(data)] returned *)
| EvAddTask (t : Task) (total : nat)            (* [progress.add_task] *)
| EvAdvance (t : Task)                          (* [progress.update(t, advance=1)] *)
| EvValidate (command : string)                 (* [validate_command] was called *)
| EvRun (command : string) (cwd : Path)         (* [subprocess.run] spawned and waited *)
| EvLogError (msg : string).                    (* [logger.error] *)

Definition Trace : Type := list Event.
Bind Scope list_scope with Trace.

Record World : Type := mkWorld {
  mkdir_raises : Trace -> Path -> option string;
  write_raises : Trace -> Path -> string -> option string;
  run_raises : Trace -> string -> Path -> option string;
  returncode : Trace -> string -> Path -> Z
}.

(** A computation: the exception that ended it or its value, and the trace. *)
Definition M (A : Type) : Type := World -> Trace -> (PyExc + A) * Trace.

Definition ret {A : Type} (a : A) : M A :=
  fun _ t => (inr a, t).

Definition bind {A B : Type} (m : M A) (k : A -> M B) : M B :=
  fun w t =>
    match m w t with
    | (inl e, t') => (inl e, t')
    | (inr a, t') => k a w t'
    end.

Definition raise {A : Type} (e : PyExc) : M A :=
  fun _ t => (inl e, t).

(** [try: m  except Exception as e: h e] *)
Definition try_except {A : Type} (m : M A) (h : PyExc -> M A) : M A :=
  fun w t =>
    match m w t with
    | (inl e, t') => h e w t'
    | (inr a, t') => (inr a, t')
    end.

Definition emit (e : Event) : M unit :=
  fun _ t => (inr tt, (t ++ [e])%list).

Declare Scope exec_scope.
Delimit Scope exec_scope with exec.
Notation "x <- m ;; k" := (bind m (fun x => k))
  (at level 61, m at next level, right associativity) : exec_scope.
Notation "m ;; k" := (bind m (fun _ => k))
  (at level 61, right associativity) : exec_scope.
Local Open Scope exec_scope.

Definition mkdir (p : Path) (parents exist_ok : bool) : M unit :=
  fun w t =>
    match mkdir_raises w t p with
    | Some msg => (inl (Exc msg), t)
    | None => (inr tt, (t ++ [EvMkdir p parents exist_ok])%list)
    end.

Definition write_text (p : Path) (data : string) : M unit :=
  fun w t =>
    match write_raises w t p data with
    | Some msg => (inl (Exc msg), t)
    | None => (inr tt, (t ++ [EvWriteText p data])%list)
    end.

(** [subprocess.run(command, shell=True, cwd=cwd)]: the return code of the
    completed process. *)
Definition subprocess_run (command : string) (cwd : Path) : M Z :=
  fun w t =>
    match run_raises w t command cwd with
    | Some msg => (inl (Exc msg), t)
    | None => (inr (returncode w t command cwd), (t ++ [EvRun command cwd])%list)
    end.

Definition validate_command (command : string) : M (bool * string) :=
  emit (EvValidate command) ;; ret (SecurityManager.validate_command command).

Definition logger_error (msg : string) : M unit := emit (EvLogError msg).
Definition add_task (t : Task) (total : nat) : M unit := emit (EvAddTask t total).
Definition advance (t : Task) : M unit := emit (EvAdvance t).

(** [for x in l: body x] *)
Fixpoint for_each {A : Type} (body : A -> M unit) (l : list A) : M unit :=
  match l with
  | [] => ret tt
  | x :: rest => body x ;; for_each body rest
  end.

(** [Path(self.project_config.get('name', 'Project'))] *)
Definition project_dir_of (self : ProjectArchitect) : Path :=
  of_string (match name (project_config self) with
             | Some n => n
             | None => "Project"
             end).

(** The body of the loop under [# Create files]. *)
Definition create_file (project_dir : Path) (file : FileArtifact) : M unit :=
  try_except
    (let file_path := joinpath project_dir (path file) in
     mkdir (parent file_path) true true ;;
     write_text file_path (content file) ;;
     advance FileTask)
    (fun e =>
       logger_error ("Error creating file " ++ path file ++ ": " ++ str_of_exc e) ;;
       raise e).

(** The body of the loop under [# Install dependencies]. *)
Definition install_dependency (project_dir : Path) (pkg : string) : M unit :=
  r <- validate_command ("npm install " ++ pkg) ;;
  let '(valid, msg) := r in
  if negb valid then logger_error msg ;; raise (Exc msg)
  else
    result <- subprocess_run ("npm install " ++ pkg) project_dir ;;
    advance DepTask.

(** The body of the loop under [# Run setup commands]. *)
Definition run_setup_command (project_dir : Path) (cmd : string) : M unit :=
  r <- validate_command cmd ;;
  let '(valid, msg) := r in
  if negb valid then logger_error msg ;; raise (Exc msg)
  else
    result <- subprocess_run cmd project_dir ;;
    advance CmdTask.

Definition _execute_plan (self : ProjectArchitect) : M unit :=
  let project_dir := project_dir_of self in
  try_except (mkdir project_dir false true)
    (fun e =>
       logger_error ("Error creating project directory: " ++ str_of_exc e) ;;
       raise e) ;;
  add_task FileTask (List.length (files (execution_plan self))) ;;
  for_each (create_file project_dir) (files (execution_plan self)) ;;
  add_task DepTask (List.length (dependencies (execution_plan self))) ;;
  for_each (install_dependency project_dir) (dependencies (execution_plan self)) ;;
  add_task CmdTask (List.length (commands (execution_plan self))) ;;
  for_each (run_setup_command project_dir) (commands (execution_plan self)).

(** A run from the empty trace. *)
Definition execute (w : World) (self : ProjectArchitect) : (PyExc + unit) * Trace :=
  _execute_plan self w [].

End Executor.

(** ** What a trace shows *)

Module Observe.

Import Executor.

(** The files written, the processes spawned, the strings submitted to the
    validator and the progress tasks created, each in the order of the
    trace. *)
Definition write_of (e : Event) : option (Path * string) :=
  match e with EvWriteText p d => Some (p, d) | _ => None end.

Definition run_of (e : Event) : option string :=
  match e with EvRun c _ => Some c | _ => None end.

Definition validate_of (e : Event) : option string :=
  match e with EvValidate c => Some c | _ => None end.

Definition task_of (e : Event) : option Task :=
  match e with EvAddTask t _ => Some t | _ => None end.

Fixpoint pick {A B : Type} (f : A -> option B) (l : list A) : list B :=
  match l with
  | [] => []
  | x :: rest =>
      match f x with
      | Some b => b :: pick f rest
      | None => pick f rest
      end
  end.

Definition writes_of (t : Trace) : list (Path * string) := pick write_of t.
Definition runs_of (t : Trace) : list string := pick run_of t.
Definition validates_of (t : Trace) : list string := pick validate_of t.
Definition tasks_of (t : Trace) : list Task := pick task_of t.

Definition task_eqb (a b : Task) : bool :=
  match a, b with
  | FileTask, FileTask | DepTask, DepTask | CmdTask, CmdTask => true
  | _, _ => false
  end.

Definition opens (k : Task) (e : Event) : bool :=
  match e with EvAddTask t _ => task_eqb t k | _ => false end.

(** The trace up to the creation of task [k] (all of it when [k] is never
    created), and the trace after it (empty when [k] is never created). *)
Fixpoint before_stage (k : Task) (t : Trace) : Trace :=
  match t with
  | [] => []
  | e :: rest => if opens k e then [] else e :: before_stage k rest
  end.

Fixpoint from_stage (k : Task) (t : Trace) : Trace :=
  match t with
  | [] => []
  | e :: rest => if opens k e then rest else from_stage k rest
  end.

Definition entered (k : Task) (t : Trace) : bool := existsb (opens k) t.

(** The event touches the file system. *)
Definition touches_files (e : Event) : bool :=
  match e with EvMkdir _ _ _ | EvWriteText _ _ => true | _ => false end.

(** The event submits a string to the validator or spawns a process. *)
Definition handles_command (e : Event) : bool :=
  match e with EvValidate _ | EvRun _ _ => true | _ => false end.

(** [a] is an initial segment of [b]. *)
Definition Prefix {A : Type} (a b : list A) : Prop := exists c, b = (a ++ c)%list.

(** The write stage 1 makes for [f], and the command stage 2 runs for [pkg]. *)
Definition target (project_dir : Path) (f : FileArtifact) : Path * string :=
  (joinpath project_dir (path f), content f).

Definition install_command (pkg : string) : string := "npm install " ++ pkg.

Definition accepted (command : string) : bool :=
  fst (SecurityManager.validate_command command).

(** The events of one item that goes through. *)
Definition file_events (project_dir : Path) (f : FileArtifact) : Trace :=
  [ EvMkdir (parent (joinpath project_dir (path f))) true true;
    EvWriteText (joinpath project_dir (path f)) (content f);
    EvAdvance FileTask ].

Definition command_events (k : Task) (project_dir : Path) (c : string) : Trace :=
  [ EvValidate c; EvRun c project_dir; EvAdvance k ].

(** A world where no file-system call and no process launch raises. *)
Definition calm (w : World) : Prop :=
  (forall t p, mkdir_raises w t p = None) /\
  (forall t p d, write_raises w t p d = None) /\
  (forall t c d, run_raises w t c d = None).

(** The events a stage adds to the trace, with the way the stage ended.

    Stage 1 either goes through every file, or stops at a file [f] whose
    directory creation or write raised [e]: the files before [f] went
    through, the directory of [f] was perhaps created, and the handler
    logged. *)
Inductive FilesRun (project_dir : Path) (l : list FileArtifact)
  : PyExc + unit -> Trace -> Prop :=
| FilesDone :
    FilesRun project_dir l (inr tt) (flat_map (file_events project_dir) l)
| FilesFailed (l1 : list FileArtifact) (f : FileArtifact) (l2 : list FileArtifact)
              (e : PyExc) (started : Trace) :
    l = (l1 ++ f :: l2)%list ->
    started = [] \/
    started = [EvMkdir (parent (joinpath project_dir (path f))) true true] ->
    FilesRun project_dir l (inl e)
      (flat_map (file_events project_dir) l1 ++ started ++
       [EvLogError ("Error creating file " ++ path f ++ ": " ++ str_of_exc e)])%list.

(** Stages 2 and 3, over the command strings [cs] of the stage, either go
    through all of them, all accepted; or stop at the first rejected one,
    after logging the verdict; or stop at an accepted one whose launch
    raised. *)
Inductive CommandsRun (k : Task) (project_dir : Path) (cs : list string)
  : PyExc + unit -> Trace -> Prop :=
| CommandsDone :
    Forall (fun c => accepted c = true) cs ->
    CommandsRun k project_dir cs (inr tt)
      (flat_map (command_events k project_dir) cs)
| CommandsRejected (c1 : list string) (c : string) (c2 : list string) :
    cs = (c1 ++ c :: c2)%list ->
    Forall (fun c => accepted c = true) c1 ->
    accepted c = false ->
    CommandsRun k project_dir cs
      (inl (Exc (snd (SecurityManager.validate_command c))))
      (flat_map (command_events k project_dir) c1 ++
       [EvValidate c; EvLogError (snd (SecurityManager.validate_command c))])%list
| CommandsLaunchFailed (c1 : list string) (c : string) (c2 : list string) (e : PyExc) :
    cs = (c1 ++ c :: c2)%list ->
    Forall (fun c => accepted c = true) (c1 ++ [c])%list ->
    CommandsRun k project_dir cs (inl e)
      (flat_map (command_events k project_dir) c1 ++ [EvValidate c])%list.

(** A whole run of [_execute_plan]: it stops at the creation of the project
    directory, in stage 1, in stage 2, or goes into stage 3. *)
Inductive PlanRun (self : ProjectArchitect) : PyExc + unit -> Trace -> Prop :=
| StopAtRoot (e : PyExc) :
    PlanRun self (inl e)
      [EvLogError ("Error creating project directory: " ++ str_of_exc e)]
| StopInFiles (e : PyExc) (tf : Trace) :
    FilesRun (project_dir_of self) (files (execution_plan self)) (inl e) tf ->
    PlanRun self (inl e)
      (EvMkdir (project_dir_of self) false true ::
       EvAddTask FileTask (List.length (files (execution_plan self))) :: tf)
| StopInDependencies (e : PyExc) (tf td : Trace) :
    FilesRun (project_dir_of self) (files (execution_plan self)) (inr tt) tf ->
    CommandsRun DepTask (project_dir_of self)
      (map install_command (dependencies (execution_plan self))) (inl e) td ->
    PlanRun self (inl e)
      (EvMkdir (project_dir_of self) false true ::
       EvAddTask FileTask (List.length (files (execution_plan self))) :: tf ++
       EvAddTask DepTask (List.length (dependencies (execution_plan self))) :: td)%list
| IntoCommands (r : PyExc + unit) (tf td tc : Trace) :
    FilesRun (project_dir_of self) (files (execution_plan self)) (inr tt) tf ->
    CommandsRun DepTask (project_dir_of self)
      (map install_command (dependencies (execution_plan self))) (inr tt) td ->
    CommandsRun CmdTask (project_dir_of self) (commands (execution_plan self)) r tc ->
    PlanRun self r
      (EvMkdir (project_dir_of self) false true ::
       EvAddTask FileTask (List.length (files (execution_plan self))) :: tf ++
       EvAddTask DepTask (List.length (dependencies (execution_plan self))) :: td ++
       EvAddTask CmdTask (List.length (commands (execution_plan self))) :: tc)%list.

(** Every spawn in the trace comes directly after the validation of the
    same string, which was accepted, and runs in [project_dir]. *)
Inductive Guarded (project_dir : Path) : Trace -> Prop :=
| GuardedNil : Guarded project_dir []
| GuardedRun (c : string) (t : Trace) :
    accepted c = true ->
    Guarded project_dir t ->
    Guarded project_dir (EvValidate c :: EvRun c project_dir :: t)
| GuardedOther (e : Event) (t : Trace) :
    run_of e = None ->
    Guarded project_dir t ->
    Guarded project_dir (e :: t).

(** The trace of a run in which nothing fails and nothing is rejected, up
    to the commands [done] of stage 3. *)
Definition full_trace (self : ProjectArchitect) (done : list string) : Trace :=
  (EvMkdir (project_dir_of self) false true ::
   EvAddTask FileTask (List.length (files (execution_plan self))) ::
   flat_map (file_events (project_dir_of self)) (files (execution_plan self)) ++
   EvAddTask DepTask (List.length (dependencies (execution_plan self))) ::
   flat_map (command_events DepTask (project_dir_of self))
            (map install_command (dependencies (execution_plan self))) ++
   EvAddTask CmdTask (List.length (commands (execution_plan self))) ::
   flat_map (command_events CmdTask (project_dir_of self)) done)%list.

(** [w] with the return codes of its processes replaced by [rc]. *)
Definition with_returncode (rc : Trace -> string -> Path -> Z) (w : World) : World :=
  mkWorld (mkdir_raises w) (write_raises w) (run_raises w) rc.

(** The world where everything goes through and every process returns [z]. *)
Definition quiet (z : Z) : World :=
  mkWorld (fun _ _ => None) (fun _ _ _ => None) (fun _ _ _ => None) (fun _ _ _ => z).

(** The trace of a run from the empty trace. *)
Definition run_trace (w : World) (self : ProjectArchitect) : Trace :=
  snd (execute w self).

(** A computation that behaves the same whatever return codes the
    processes of the world give. *)
Definition Insensitive {A : Type} (m : M A) : Prop :=
  forall rc w t, m (with_returncode rc w) t = m w t.

(** A world whose disk is full: every [write_text] raises. *)
Definition full_disk : World :=
  mkWorld (fun _ _ => None) (fun _ _ _ => Some "No space left on device")
          (fun _ _ _ => None) (fun _ _ _ => 0%Z).

End Observe.

(** ** Notions the statements use *)

Module Notions.

(** [p] occurs in [s] as a contiguous block. *)
Definition Occurs (p s : string) : Prop := exists a b, s = a ++ p ++ b.

Fixpoint mem_char (d : ascii) (s : string) : bool :=
  match s with
  | EmptyString => false
  | String c r => Ascii.eqb c d || mem_char d r
  end.

(** A string that is one line of a text: it holds no line feed. *)
Definition one_line (l : string) : bool := negb (mem_char LF l).

(** The text whose lines are [ls]. *)
Definition text_of (ls : list string) : string := join_on LF ls.

(** The record the parser logs for a [FILE:] line without separator. *)
Definition malformed_record (line : string) : LogRecord :=
  LogError ("Error parsing file line: " ++ line ++
            " - not enough values to unpack (expected 2, got 1)").

(** The six-line plan of the round-trip property. *)
Definition canonical_plan_text : string :=
  text_of [ "// FILES"; "FILE: a/b.txt => hello";
            "// DEPS"; "PKG: left-pad@1.0.0";
            "// COMMANDS"; "SHELL: echo hi" ].

End Notions.

Import Notions.

(** ** Plans the examples run *)

Module Examples.

(** One file, one dependency, and a rejected command between two accepted
    ones. *)
Definition demo_plan : ProjectArchitect :=
  mkArchitect (mkConfig (Some "demo"))
    (mkPlan [mkFile "src/a.txt" "hi"]
            ["echo hi"; "sudo reboot"; "ls"]
            ["left-pad@1.0.0"]).

(** A plan whose paths leave the project directory: one through [".."],
    one absolute. *)
Definition escaping_plan : ProjectArchitect :=
  mkArchitect (mkConfig (Some "demo"))
    (mkPlan [mkFile "../outside.txt" "x"; mkFile "/tmp/abs.txt" "y"] [] []).

(** A plan with a rejected command, and a dependency whose install command
    is rejected before it (["dd"] occurs in ["npm install dd-trace"]). *)
Definition early_abort_plan : ProjectArchitect :=
  mkArchitect (mkConfig (Some "demo"))
    (mkPlan [mkFile "a.txt" "x"] ["sudo reboot"] ["dd-trace"]).

(** A plan in which everything is accepted. *)
Definition clean_plan : ProjectArchitect :=
  mkArchitect (mkConfig None)
    (mkPlan [mkFile "a.txt" "x"] ["npm test"] ["left-pad@1.0.0"]).

End Examples.

(** ** The rest of the program *)

(** More Python primitives, for the code below. *)
Module PyMore.

Definition COMMA : ascii := ascii_of_nat 44.

(** [s.split()]: the words of [s], separated by runs of whitespace. *)
Fixpoint split_ws (s : string) : list string :=
  match s with
  | EmptyString => []
  | String c r =>
      if is_space c then split_ws r
      else match r with
           | EmptyString => [String c EmptyString]
           | String c' _ =>
               if is_space c' then String c EmptyString :: split_ws r
               else match split_ws r with
                    | [] => [String c EmptyString]
                    | w :: ws => String c w :: ws
                    end
           end
  end.

(** [l[1]] *)
Definition index1 (l : list string) : PyExc + string :=
  match l with
  | _ :: x :: _ => inr x
  | _ => inl (Exc "list index out of range")
  end.

(** A [dict] with keys of type [K]: the items in insertion order, one per
    key.  [d[k] = v] replaces the value of a key already there and appends a
    new key; [del d[k]] removes the key. *)
Section Dict.

Variables (K V : Type) (eqb : K -> K -> bool).

Fixpoint dict_get (d : list (K * V)) (k : K) : option V :=
  match d with
  | [] => None
  | (k', v) :: rest => if eqb k' k then Some v else dict_get rest k
  end.

Definition dict_has (d : list (K * V)) (k : K) : bool :=
  match dict_get d k with Some _ => true | None => false end.

Fixpoint dict_set (d : list (K * V)) (k : K) (v : V) : list (K * V) :=
  match d with
  | [] => [(k, v)]
  | (k', v') :: rest =>
      if eqb k' k then (k', v) :: rest else (k', v') :: dict_set rest k v
  end.

Fixpoint dict_del (d : list (K * V)) (k : K) : list (K * V) :=
  match d with
  | [] => []
  | (k', v') :: rest =>
      if eqb k' k then dict_del rest k else (k', v') :: dict_del rest k
  end.

End Dict.

End PyMore.

(** [ColoredFormatter.format]: the assignment it makes to
    [record.levelname] before it hands the record to the base class. *)
Module ColoredFormatter.

Definition COLORS : list (string * string) :=
  [ ("DEBUG", "[cyan]"); ("INFO", "[green]"); ("WARNING", "[yellow]");
    ("ERROR", "[red]"); ("CRITICAL", "[bold red]") ].

Definition format_levelname (levelname : string) : string :=
  match PyMore.dict_get String.eqb COLORS levelname with
  | Some color => color ++ levelname ++ "[/]"
  | None => levelname
  end.

End ColoredFormatter.

(** [SecurityManager.sanitize_path], which is [os.path.normpath] of
    [posixpath]. *)
Module Sanitizer.

(** 0 for a relative path; 2 for exactly two leading slashes; 1 otherwise. *)
Definition initial_slashes_of (path : string) : nat :=
  if startswith path "/" then
    if startswith path "//" && negb (startswith path "///") then 2 else 1
  else 0.

Definition is_empty (l : list string) : bool :=
  match l with [] => true | _ :: _ => false end.

(** One iteration of the loop over the components: [new_comps] after
    [comp]. *)
Definition normpath_step (initial_slashes : nat) (new_comps : list string)
           (comp : string) : list string :=
  if String.eqb comp "" || String.eqb comp "." then new_comps
  else if negb (String.eqb comp "..")
          || ((initial_slashes =? 0)%nat && is_empty new_comps)
          || (negb (is_empty new_comps) && String.eqb (last new_comps "") "..")
       then (new_comps ++ [comp])%list
       else if negb (is_empty new_comps) then removelast new_comps
            else new_comps.

Fixpoint slashes (n : nat) : string :=
  match n with
  | 0 => EmptyString
  | S m => String Pathlib.SLASH (slashes m)
  end.

Definition normpath (path : string) : string :=
  if String.eqb path "" then "."
  else
    let initial_slashes := initial_slashes_of path in
    let comps :=
      fold_left (normpath_step initial_slashes) (split_on Pathlib.SLASH path) [] in
    let path' := slashes initial_slashes ++ join_on Pathlib.SLASH comps in
    if String.eqb path' "" then "." else path'.

Definition sanitize_path (path : string) : string := normpath path.

End Sanitizer.

(** [ProjectArchitect._parse_analysis]: the dictionary [analysis] it builds
    and stores under [project_config['analysis']].  The dictionary takes at
    most five keys; a field is [None] while its key is absent. *)
Module Analysis.

Record Analysis : Type := mkAnalysis {
  frameworks : option (list string);
  database : option string;
  auth : option string;
  hosting : option string;
  features : option (list string)
}.

Definition empty : Analysis := mkAnalysis None None None None None.

(** [line.split(":", 1)[1]] *)
Definition after_colon (line : string) : PyExc + string :=
  PyMore.index1 (split1 ":" line).

(** [[x.strip() for x in v.split(",")]] *)
Definition comma_items (v : string) : list string :=
  map strip (split_on PyMore.COMMA v).

(** One iteration of the loop over the lines. *)
Definition parse_line (a : Analysis) (raw : string) : PyExc + Analysis :=
  let line := strip raw in
  if startswith line "FRAMEWORKS:" then
    match after_colon line with
    | inr v => inr (mkAnalysis (Some (comma_items v)) (database a) (auth a)
                               (hosting a) (features a))
    | inl e => inl e
    end
  else if startswith line "DATABASE:" then
    match after_colon line with
    | inr v => inr (mkAnalysis (frameworks a) (Some (strip v)) (auth a)
                               (hosting a) (features a))
    | inl e => inl e
    end
  else if startswith line "AUTH_METHOD:" then
    match after_colon line with
    | inr v => inr (mkAnalysis (frameworks a) (database a) (Some (strip v))
                               (hosting a) (features a))
    | inl e => inl e
    end
  else if startswith line "HOSTING:" then
    match after_colon line with
    | inr v => inr (mkAnalysis (frameworks a) (database a) (auth a)
                               (Some (strip v)) (features a))
    | inl e => inl e
    end
  else if startswith line "KEY_FEATURES:" then
    match after_colon line with
    | inr v => inr (mkAnalysis (frameworks a) (database a) (auth a)
                               (hosting a) (Some (comma_items v)))
    | inl e => inl e
    end
  else inr a.

Fixpoint parse_lines (a : Analysis) (lines : list string) : PyExc + Analysis :=
  match lines with
  | [] => inr a
  | l :: rest =>
      match parse_line a l with
      | inr a' => parse_lines a' rest
      | inl e => inl e
      end
  end.

Definition _parse_analysis (response : string) : PyExc + Analysis :=
  parse_lines empty (split_on LF response).

End Analysis.

(** [CommandInterface]: the routing of [_handle_command], one turn of the
    loop of [run], and [_handle_template] over the global [TEMPLATES]. *)
Module CommandInterface.

Inductive Handler : Type :=
| HandleCreate | HandleEdit | HandleReview | HandleAnalyze | HandleTemplate
| HandleDeploy | HandleTest | HandleDocs | HandleStatus | HandleHelp.

Definition handlers : list (string * Handler) :=
  [ ("/create", HandleCreate); ("/edit", HandleEdit); ("/review", HandleReview);
    ("/analyze", HandleAnalyze); ("/template", HandleTemplate);
    ("/deploy", HandleDeploy); ("/test", HandleTest); ("/docs", HandleDocs);
    ("/status", HandleStatus); ("/help", HandleHelp) ].

(** What [_handle_command] calls: a handler with [args], or [_show_help]. *)
Inductive Routed : Type :=
| Call (h : Handler) (args : list string)
| ShowHelp.

Definition _handle_command (command : string) : PyExc + Routed :=
  match PyMore.split_ws command with
  | [] => inl (Exc "list index out of range")
  | first :: args =>
      match PyMore.dict_get String.eqb handlers (lower first) with
      | Some h => inr (Call h args)
      | None => inr ShowHelp
      end
  end.



(** A value of [TEMPLATES]. *)
Record Template : Type := mkTemplate {
  tpl_name : option string;
  tpl_stack : list string;
  tpl_features : list string;
  tpl_structure : list string
}.

(** [questionary.text(...).ask()] returns [None] when the user cancels, so
    a template id is a string or [None]. *)
Definition key_eqb (a b : option string) : bool :=
  match a, b with
  | Some x, Some y => String.eqb x y
  | None, None => true
  | _, _ => false
  end.

Definition Templates : Type := list (option string * Template).

Definition TEMPLATES : Templates :=
  [ (Some "fullstack-react",
     mkTemplate (Some "Full-Stack React Application")
                ["react"; "node"; "express"; "mongodb"]
                ["authentication"; "api"; "database"; "testing"]
                ["frontend/"; "backend/"; "shared/"; "docs/"; "tests/"]);
    (Some "microservices",
     mkTemplate (Some "Microservices Architecture")
                ["nodejs"; "docker"; "kubernetes"; "mongodb"]
                ["service-mesh"; "api-gateway"; "monitoring"]
                ["services/"; "gateway/"; "deployment/"; "monitoring/"]);
    (Some "jamstack",
     mkTemplate (Some "JAMstack Application")
                ["next.js"; "tailwind"; "prisma"; "vercel"]
                ["ssg"; "cms"; "api-routes"]
                ["pages/"; "components/"; "lib/"; "public/"]) ].

(** [answer.split(',')], which raises on [None]. *)
Definition split_commas (answer : option string) : PyExc + list string :=
  match answer with
  | Some s => inr (split_on PyMore.COMMA s)
  | None => inl (Exc "'NoneType' object has no attribute 'split'")
  end.

(** [str(answer)], as an f-string formats it. *)
Definition str_of_answer (answer : option string) : string :=
  match answer with
  | Some s => s
  | None => "None"
  end.

(** [_handle_template args], with [ask] giving the answer to each prompt by
    its message: the exception raised or the line printed, and [TEMPLATES]
    after the call.  The method [_show_templates] it calls for [list] is not
    defined in the class, so that call raises. *)
Definition _show_templates (T : Templates) : (PyExc + string) * Templates :=
  (inl (Exc "'CommandInterface' object has no attribute '_show_templates'"), T).

Definition _handle_template (ask : string -> option string) (args : list string)
           (T : Templates) : (PyExc + string) * Templates :=
  match args with
  | [] => _show_templates T
  | action :: _ =>
      if String.eqb action "list" then _show_templates T
      else if String.eqb action "add" then
        let tpl_id := ask "Enter new template id:" in
        let name := ask "Enter template name:" in
        match split_commas
                (ask "Enter comma-separated stack (e.g., react,node,express):") with
        | inl e => (inl e, T)
        | inr stack =>
            match split_commas (ask "Enter comma-separated features:") with
            | inl e => (inl e, T)
            | inr features =>
                match split_commas
                        (ask "Enter comma-separated directory structure:") with
                | inl e => (inl e, T)
                | inr structure =>
                    (inr ("[green]Template " ++ str_of_answer tpl_id ++ " added.[/green]"),
                     PyMore.dict_set key_eqb T tpl_id
                       (mkTemplate name (map strip stack) (map strip features)
                                   (map strip structure)))
                end
            end
        end
      else if String.eqb action "remove" then
        let tpl_id := ask "Enter template id to remove:" in
        if PyMore.dict_has key_eqb T tpl_id
        then (inr ("[green]Template " ++ str_of_answer tpl_id ++ " removed.[/green]"),
              PyMore.dict_del key_eqb T tpl_id)
        else (inr ("[red]Template " ++ str_of_answer tpl_id ++ " not found.[/red]"), T)
      else (inr "[red]Invalid template action. Use: list, add, remove[/red]", T)
  end.

End CommandInterface.

(** ** Further notions the statements use *)

Module MoreNotions.

Import Pathlib.

Fixpoint names_eqb (a b : list string) : bool :=
  match a, b with
  | [], [] => true
  | x :: a', y :: b' => String.eqb x y && names_eqb a' b'
  | _, _ => false
  end.

(** What the writes [ws], made in this order, leave at the place [loc] of
    the file system, for a process whose working directory is [cwd]: the
    data of the last write that went there, if any.  Places are compared
    after the directory walk, without symbolic links. *)
Fixpoint content_at (cwd : list string) (ws : list (Path * string))
         (loc : list string) : option string :=
  match ws with
  | [] => None
  | (p, data) :: rest =>
      match content_at cwd rest loc with
      | Some later => Some later
      | None => if names_eqb (locate cwd p) loc then Some data else None
      end
  end.

(** A component [normpath] keeps for good: not empty, not ["."], not
    [".."], and without a slash. *)
Definition proper (c : string) : bool :=
  negb (String.eqb c "") && negb (String.eqb c ".") &&
  negb (String.eqb c "..") && negb (mem_char SLASH c).

Definition is_dotdot (c : string) : bool := String.eqb c "..".

(** The components of a normal relative path: [".."] segments, then proper
    ones. *)
Fixpoint normal_relative (cs : list string) : bool :=
  match cs with
  | [] => true
  | c :: rest =>
      if is_dotdot c then normal_relative rest else forallb proper (c :: rest)
  end.

(** The components [normpath] ends with, for a path with [initial_slashes]
    leading slashes: proper ones, after [".."] segments when the path is
    relative. *)
Definition normal_comps (initial_slashes : nat) (cs : list string) : bool :=
  if (initial_slashes =? 0)%nat then normal_relative cs else forallb proper cs.

(** The keys [_parse_analysis] can set, with the tag of the line that sets
    each, the value stored under each, and the value a line sets from the
    text [v] after its tag. *)
Inductive AnalysisKey : Type :=
| KFrameworks | KDatabase | KAuth | KHosting | KFeatures.

Inductive AnalysisValue : Type :=
| Text (s : string)
| Items (l : list string).

Definition tag_of (k : AnalysisKey) : string :=
  match k with
  | KFrameworks => "FRAMEWORKS:"
  | KDatabase => "DATABASE:"
  | KAuth => "AUTH_METHOD:"
  | KHosting => "HOSTING:"
  | KFeatures => "KEY_FEATURES:"
  end.

Definition value_of (k : AnalysisKey) (a : Analysis.Analysis) : option AnalysisValue :=
  match k with
  | KFrameworks => option_map Items (Analysis.frameworks a)
  | KDatabase => option_map Text (Analysis.database a)
  | KAuth => option_map Text (Analysis.auth a)
  | KHosting => option_map Text (Analysis.hosting a)
  | KFeatures => option_map Items (Analysis.features a)
  end.

Definition value_from (k : AnalysisKey) (v : string) : AnalysisValue :=
  match k with
  | KFrameworks | KFeatures => Items (Analysis.comma_items v)
  | KDatabase | KAuth | KHosting => Text (strip v)
  end.

(** A string without whitespace: a word of [str.split()]. *)
Fixpoint no_space (s : string) : bool :=
  match s with
  | EmptyString => true
  | String c r => negb (is_space c) && no_space r
  end.

(** A plan that writes the same file twice, under two spellings. *)
Definition twice_plan : ProjectArchitect :=
  mkArchitect (mkConfig (Some "demo"))
    (mkPlan [mkFile "a.txt" "old"; mkFile "./a.txt" "new"] [] []).

(** A string without whitespace at either end. *)
Definition stripped (s : string) : Prop := strip s = s.

(** Every file of the plan satisfies [Pf], every command and every
    dependency [Ps]. *)
Definition EveryField (Pf : FileArtifact -> Prop) (Ps : string -> Prop)
           (pl : ExecutionPlan) : Prop :=
  Forall Pf (files pl) /\ Forall Ps (commands pl) /\ Forall Ps (dependencies pl).

End MoreNotions.

(** * Properties *)

(** ** Strings *)

Section StringFacts.

Lemma append_assoc (a b c : string) : (a ++ b) ++ c = a ++ (b ++ c).
Proof. induction a as [|x a IH]; simpl; [reflexivity | now rewrite IH]. Qed.

Lemma append_empty_r (a : string) : a ++ "" = a.
Proof. induction a as [|x a IH]; simpl; [reflexivity | now rewrite IH]. Qed.

Lemma startswith_iff (s p : string) :
  startswith s p = true <-> exists b, s = p ++ b.
Proof.
  revert s; induction p as [|x p IH]; intros s.
  - split; [intros _; now exists s | intros _; now destruct s].
  - destruct s as [|y s]; simpl.
    + split; [discriminate | intros [b Hb]; discriminate].
    + rewrite andb_true_iff, Ascii.eqb_eq, IH. split.
      * intros [-> [b ->]]. now exists b.
      * intros [b Hb]. injection Hb as -> ->. split; [reflexivity | now exists b].
Qed.

Lemma contains_iff (p s : string) : contains p s = true <-> Occurs p s.
Proof.
  induction s as [|c s IH].
  - change (contains p "") with (startswith "" p || false).
    rewrite orb_false_r, startswith_iff. split.
    + intros [b Hb]. now exists "", b.
    + intros [a [b Hab]]. destruct a; [now exists b | discriminate].
  - change (contains p (String c s))
      with (startswith (String c s) p || contains p s).
    rewrite orb_true_iff, startswith_iff, IH. split.
    + intros [[b Hb] | [a [b Hab]]].
      * now exists "", b.
      * exists (String c a), b. simpl. now rewrite Hab.
    + intros [a [b Hab]]. destruct a as [|x a].
      * left. now exists b.
      * right. injection Hab as -> ->. now exists a, b.
Qed.

Lemma contains_false_iff (p s : string) : contains p s = false <-> ~ Occurs p s.
Proof.
  rewrite <- contains_iff. destruct (contains p s); split; intros; congruence.
Qed.

Lemma occurs_trans (p s u : string) : Occurs p s -> Occurs s u -> Occurs p u.
Proof.
  intros [a [b ->]] [a' [b' ->]]. exists (a' ++ a), (b ++ b').
  now rewrite !append_assoc.
Qed.

End StringFacts.

(** ** The validator *)

Section Validator.

Import SecurityManager.

Lemma validate_loop_rejects (ps : list string) (c : string) :
  fst (validate_loop ps c) = false <->
  exists p, In p ps /\ Occurs p (lower c).
Proof.
  induction ps as [|p ps IH]; simpl.
  - split; [discriminate | intros [p [[] _]]].
  - destruct (contains p (lower c)) eqn:E; simpl.
    + split; [intros _ | reflexivity].
      exists p. split; [now left | now apply contains_iff].
    + rewrite IH. apply contains_false_iff in E. split.
      * intros [q [Hq Ho]]. exists q. split; [now right | exact Ho].
      * intros [q [[<- | Hq] Ho]]; [contradiction | now exists q].
Qed.

Lemma validate_loop_verdict (ps : list string) (c : string) :
  validate_loop ps c = (false, "Dangerous command detected: " ++ c) \/
  validate_loop ps c = (true, "Command validated").
Proof.
  induction ps as [|p ps IH]; simpl; [now right |].
  destruct (contains p (lower c)); [now left | exact IH].
Qed.

(** C1. [validate_command] rejects a command, with the reason
    ["Dangerous command detected: "] followed by the command, exactly when
    the lower-cased command contains one of the deny-list patterns; a command
    whose lower-cased form is free of every pattern is accepted. *)
Theorem validate_command_deny_list (c : string) :
  (validate_command c = (false, "Dangerous command detected: " ++ c) <->
   exists p, In p DANGEROUS_PATTERNS /\ Occurs p (lower c)) /\
  (validate_command c = (true, "Command validated") <->
   forall p, In p DANGEROUS_PATTERNS -> ~ Occurs p (lower c)).
Proof.
  unfold validate_command.
  pose proof (validate_loop_rejects DANGEROUS_PATTERNS c) as R.
  destruct (validate_loop_verdict DANGEROUS_PATTERNS c) as [E | E];
    rewrite E in *; simpl in R.
  - split.
    + split; [intros _; now apply R | reflexivity].
    + split; [discriminate |].
      intros H. destruct R as [R _]. destruct (R eq_refl) as [p [Hp Ho]].
      now destruct (H p Hp).
  - split.
    + split; [discriminate |].
      intros H. destruct R as [_ R]. now specialize (R H).
    + split; [| reflexivity].
      intros _ p Hp Ho. destruct R as [_ R].
      assert (true = false) by (apply R; now exists p). discriminate.
Qed.

End Validator.

(** ** The parser *)

Section SplitFacts.

Lemma drop_suffix (n : nat) (s : string) : exists a, s = a ++ drop n s.
Proof.
  revert s; induction n as [|n IH]; intros s.
  - now exists "".
  - destruct s as [|c s]; simpl.
    + now exists "".
    + destruct (IH s) as [a Ha]. exists (String c a). simpl. now rewrite <- Ha.
Qed.

Lemma contains_drop (p : string) (n : nat) (s : string) :
  contains p s = false -> contains p (drop n s) = false.
Proof.
  rewrite !contains_false_iff. intros H Ho. apply H.
  apply occurs_trans with (s := drop n s); [exact Ho |].
  destruct (drop_suffix n s) as [a Ha]. exists a, "".
  now rewrite append_empty_r.
Qed.

Lemma startswith_drop (s p : string) :
  startswith s p = true -> s = p ++ drop (String.length p) s.
Proof.
  revert s; induction p as [|x p IH]; intros s H.
  - now destruct s.
  - destruct s as [|y s]; simpl in H; [discriminate |].
    apply andb_true_iff in H as [Hxy Hp]. apply Ascii.eqb_eq in Hxy as ->.
    simpl. now rewrite <- (IH s Hp).
Qed.

Lemma split1_unfold (sep s : string) :
  split1 sep s =
  if startswith s sep then [EmptyString; drop (String.length sep) s]
  else match s with
       | EmptyString => [EmptyString]
       | String c r =>
           match split1 sep r with
           | [a; b] => [String c a; b]
           | _ => [s]
           end
       end.
Proof. now destruct s. Qed.

Lemma contains_unfold (p s : string) :
  contains p s =
  startswith s p || match s with
                    | EmptyString => false
                    | String _ r => contains p r
                    end.
Proof. now destruct s. Qed.

(** Without an occurrence of the separator, [split(sep, 1)] returns the
    string alone. *)
Lemma split1_absent (sep s : string) :
  contains sep s = false -> split1 sep s = [s].
Proof.
  induction s as [|c s IH]; rewrite contains_unfold, split1_unfold;
    intros H; apply orb_false_iff in H as [H1 H2]; rewrite H1.
  - reflexivity.
  - now rewrite (IH H2).
Qed.

(** With one, it returns the text before the leftmost occurrence and the
    text after it. *)
Lemma split1_present (sep s : string) :
  contains sep s = true ->
  exists a b, split1 sep s = [a; b] /\ s = a ++ sep ++ b.
Proof.
  induction s as [|c s IH]; rewrite contains_unfold, split1_unfold; intros H.
  - rewrite orb_false_r in H. rewrite H.
    exists "", (drop (String.length sep) ""). split; [reflexivity |].
    now apply startswith_drop.
  - destruct (startswith (String c s) sep) eqn:E.
    + exists "", (drop (String.length sep) (String c s)). split; [reflexivity |].
      now apply startswith_drop.
    + simpl in H. destruct (IH H) as [a [b [Hs Hab]]]. rewrite Hs.
      exists (String c a), b. split; [reflexivity |]. simpl. now rewrite <- Hab.
Qed.

Lemma split_on_unfold (d : ascii) (s : string) :
  split_on d s =
  match s with
  | EmptyString => [EmptyString]
  | String c r =>
      if Ascii.eqb c d then EmptyString :: split_on d r
      else match split_on d r with
           | [] => [String c EmptyString]
           | l :: ls => String c l :: ls
           end
  end.
Proof. now destruct s. Qed.

Lemma split_on_line (d : ascii) (l : string) :
  mem_char d l = false -> split_on d l = [l].
Proof.
  induction l as [|c l IH]; simpl; intros H; [reflexivity |].
  apply orb_false_iff in H as [H1 H2]. now rewrite H1, (IH H2).
Qed.

Lemma split_on_cons (d : ascii) (l r : string) :
  mem_char d l = false -> split_on d (l ++ String d r) = l :: split_on d r.
Proof.
  induction l as [|c l IH]; simpl; intros H.
  - now rewrite Ascii.eqb_refl.
  - apply orb_false_iff in H as [H1 H2]. now rewrite H1, (IH H2).
Qed.

(** Splitting a text at its line feeds gives back the lines it was made of. *)
Lemma split_on_join (d : ascii) (ls : list string) :
  ls <> [] -> Forall (fun l => mem_char d l = false) ls ->
  split_on d (join_on d ls) = ls.
Proof.
  induction ls as [|l ls IH]; intros Hne Hall; [congruence |].
  inversion_clear Hall as [|? ? Hl Hls].
  destruct ls as [|l' ls'].
  - simpl. now apply split_on_line.
  - change (join_on d (l :: l' :: ls'))
      with (l ++ String d (join_on d (l' :: ls'))).
    rewrite split_on_cons by exact Hl.
    rewrite IH; [reflexivity | discriminate | exact Hls].
Qed.

End SplitFacts.

Section StripFacts.

Lemma lstrip_suffix (s : string) : exists a, s = a ++ lstrip s.
Proof.
  induction s as [|c s [a Ha]]; simpl.
  - now exists "".
  - destruct (is_space c).
    + exists (String c a). simpl. now rewrite <- Ha.
    + now exists "".
Qed.

Lemma rstrip_prefix (s : string) : exists b, s = rstrip s ++ b.
Proof.
  induction s as [|c s [b Hb]]; simpl.
  - now exists "".
  - destruct (rstrip s) as [|x t] eqn:E.
    + destruct (is_space c).
      * now exists (String c s).
      * exists s. reflexivity.
    + exists b. simpl. simpl in Hb. now rewrite <- Hb.
Qed.

(** Stripping removes characters at both ends only. *)
Lemma strip_occurs (s : string) : Occurs (strip s) s.
Proof.
  unfold strip. destruct (lstrip_suffix s) as [a Ha].
  destruct (rstrip_prefix (lstrip s)) as [b Hb].
  exists a, b. now rewrite <- Hb.
Qed.

Lemma strip_no_new_occurrence (p s : string) :
  contains p s = false -> contains p (strip s) = false.
Proof.
  rewrite !contains_false_iff. intros H Ho. apply H.
  exact (occurs_trans Ho (strip_occurs s)).
Qed.

Lemma rstrip_cons (c : ascii) (s : string) :
  is_space c = false -> rstrip (String c s) = String c (rstrip s).
Proof. intros H. simpl. rewrite H. now destruct (rstrip s). Qed.

(** A line that starts with the tag [FILE:] still does once stripped. *)
Lemma strip_keeps_file_tag (raw : string) :
  startswith raw "FILE:" = true -> startswith (strip raw) "FILE:" = true.
Proof.
  intros H. apply startswith_iff in H as [b ->]. apply startswith_iff.
  exists (rstrip b). unfold strip.
  change (lstrip ("FILE:" ++ b)) with ("FILE:" ++ b).
  change ("FILE:" ++ b)
    with (String "F" (String "I" (String "L" (String "E" (String ":" b))))).
  now rewrite !rstrip_cons by reflexivity.
Qed.

End StripFacts.

Section ParserFacts.

Import Parser.

Lemma file_tag_is_no_marker (line : string) :
  startswith line "FILE:" = true ->
  startswith line "// FILES" = false /\
  startswith line "// COMMANDS" = false /\
  startswith line "// DEPS" = false.
Proof. intros H. apply startswith_iff in H as [b ->]. now repeat split. Qed.

Lemma parse_file_entry_malformed (line : string) :
  contains " => " line = false ->
  parse_file_entry line =
  inl (Exc "not enough values to unpack (expected 2, got 1)").
Proof.
  intros H. unfold parse_file_entry.
  rewrite split1_absent; [reflexivity | now apply contains_drop].
Qed.

(** The step the loop makes on a [FILE:] line without separator, in the
    files section: one log record, nothing else. *)
Lemma parse_line_malformed (st : ParseState) (raw : string) :
  current_section st = Some SecFiles ->
  startswith (strip raw) "FILE:" = true ->
  contains " => " (strip raw) = false ->
  parse_line st raw =
  mkState (current_section st) (plan st) (log st ++ [malformed_record (strip raw)]).
Proof.
  intros Hsec Htag Hsep. unfold parse_line.
  destruct (file_tag_is_no_marker _ Htag) as [-> [-> ->]].
  rewrite Hsec, Htag. simpl andb. cbv iota.
  rewrite parse_file_entry_malformed by exact Hsep.
  unfold logger_error. now rewrite Hsec.
Qed.

(** The records already logged do not influence a step: they are carried
    along in front of the new ones. *)
Lemma parse_line_frame (sec : option SectionName) (pl : ExecutionPlan)
      (lg : list LogRecord) (raw : string) :
  parse_line (mkState sec pl lg) raw =
  let st := parse_line (mkState sec pl []) raw in
  mkState (current_section st) (plan st) (lg ++ log st).
Proof.
  unfold parse_line; simpl.
  repeat match goal with
         | |- context [if ?b then _ else _] => destruct b; simpl
         | |- context [match ?x with inl _ => _ | inr _ => _ end] => destruct x; simpl
         end;
    rewrite ?app_nil_r; reflexivity.
Qed.

Lemma parse_lines_frame (lines : list string) (sec : option SectionName)
      (pl : ExecutionPlan) (lg : list LogRecord) :
  parse_lines (mkState sec pl lg) lines =
  let st := parse_lines (mkState sec pl []) lines in
  mkState (current_section st) (plan st) (lg ++ log st).
Proof.
  revert sec pl lg; induction lines as [|l lines IH]; intros sec pl lg; simpl.
  - now rewrite app_nil_r.
  - rewrite (parse_line_frame sec pl lg l). simpl.
    destruct (parse_line (mkState sec pl []) l) as [sec' pl' lg'] eqn:E. simpl.
    rewrite (IH sec' pl' (lg ++ lg')%list), (IH sec' pl' lg'). simpl.
    now rewrite app_assoc.
Qed.

Lemma parse_text_of (ls : list string) :
  ls <> [] -> Forall (fun l => one_line l = true) ls ->
  parse (text_of ls) = parse_lines initial ls.
Proof.
  intros Hne Hall. unfold parse, text_of. rewrite split_on_join; trivial.
  eapply Forall_impl; [| exact Hall]. intros l. unfold one_line.
  now destruct (mem_char LF l).
Qed.

End ParserFacts.

Section ParserClaims.

Import Parser.

(** C2. Parsing the canonical six-line plan text gives the plan with the one
    file [a/b.txt] of content [hello], the one dependency [left-pad@1.0.0]
    and the one command [echo hi], whatever the object held before; nothing
    is logged. *)
Theorem parse_canonical_plan (self : ProjectArchitect) :
  execution_plan (fst (_parse_plan self canonical_plan_text)) =
    mkPlan [mkFile "a/b.txt" "hello"] ["echo hi"] ["left-pad@1.0.0"] /\
  snd (_parse_plan self canonical_plan_text) = [].
Proof. split; reflexivity. Qed.

(** C9. The plan [_parse_plan] stores and the records it logs are a function
    of the response text alone: two objects with different earlier plans end
    with equal plans, parsing the same text a second time changes nothing,
    and the configuration is left as it was. *)
Theorem parse_plan_deterministic (self1 self2 : ProjectArchitect) (response : string) :
  execution_plan (fst (_parse_plan self1 response)) =
    execution_plan (fst (_parse_plan self2 response)) /\
  snd (_parse_plan self1 response) = snd (_parse_plan self2 response) /\
  _parse_plan (fst (_parse_plan self1 response)) response =
    _parse_plan self1 response /\
  project_config (fst (_parse_plan self1 response)) = project_config self1.
Proof. repeat split. Qed.

(** C7. In a text of lines [pre], [bad], [post], where the parser is in the
    files section after [pre] and [bad], once stripped, starts with [FILE:]
    and holds no [" => "]: parsing returns a plan, the plan and the section
    reached are those of the text without [bad], and the log is the log of
    that text with one record for [bad] added at the place of the line. *)
Theorem malformed_file_line_skipped (pre post : list string) (bad : string) :
  Forall (fun l => one_line l = true) (pre ++ bad :: post) ->
  current_section (parse (text_of pre)) = Some SecFiles ->
  startswith (strip bad) "FILE:" = true ->
  contains " => " (strip bad) = false ->
  plan (parse (text_of (pre ++ bad :: post))) = plan (parse (text_of (pre ++ post))) /\
  current_section (parse (text_of (pre ++ bad :: post))) =
    current_section (parse (text_of (pre ++ post))) /\
  exists later,
    log (parse (text_of (pre ++ post))) = (log (parse (text_of pre)) ++ later)%list /\
    log (parse (text_of (pre ++ bad :: post))) =
      (log (parse (text_of pre)) ++ malformed_record (strip bad) :: later)%list.
Proof.
  intros Hall Hsec Htag Hsep.
  destruct pre as [|p pre]; [discriminate Hsec |].
  apply Forall_app in Hall as [Hpre Hrest].
  inversion_clear Hrest as [|? ? Hbad Hpost].
  rewrite (@parse_text_of (p :: pre)) in * by (trivial; discriminate).
  rewrite !parse_text_of;
    try discriminate;
    try (apply Forall_app; split; trivial; now constructor).
  unfold parse_lines in *. rewrite !fold_left_app.
  change (fold_left parse_line (bad :: post) ?s)
    with (fold_left parse_line post (parse_line s bad)).
  destruct (fold_left parse_line (p :: pre) initial) as [sec pl lg] eqn:E.
  simpl in Hsec. subst sec.
  rewrite parse_line_malformed by trivial. simpl.
  pose proof (parse_lines_frame post (Some SecFiles) pl lg) as F1.
  pose proof (parse_lines_frame post (Some SecFiles) pl
                (lg ++ [malformed_record (strip bad)])%list) as F2.
  unfold parse_lines in F1, F2. rewrite F1, F2. simpl.
  repeat split.
  exists (log (fold_left parse_line post (mkState (Some SecFiles) pl []))).
  split; [reflexivity |]. now rewrite <- app_assoc.
Qed.

Lemma malformed_file_line_skipped_witness :
  plan (parse (text_of ["// FILES"; "FILE: a.txt => x"; "FILE: broken";
                        "FILE: b.txt => y"; "// DEPS"; "PKG: p@1"])) =
  mkPlan [mkFile "a.txt" "x"; mkFile "b.txt" "y"] [] ["p@1"].
Proof.
  pose proof (@malformed_file_line_skipped
                ["// FILES"; "FILE: a.txt => x"]
                ["FILE: b.txt => y"; "// DEPS"; "PKG: p@1"]
                "FILE: broken") as H.
  destruct H as [H _].
  - repeat constructor.
  - reflexivity.
  - reflexivity.
  - reflexivity.
  - exact H.
Defined.

Lemma contains_skip (p : string) (c : ascii) (s : string) :
  startswith (String c s) p = false -> contains p (String c s) = contains p s.
Proof. intros H. now rewrite contains_unfold, H. Qed.

Lemma separator_after_tag (c : ascii) (rest : string) :
  c <> " "%char ->
  contains " => " ("FILE:" ++ String c rest) = true ->
  contains " => " rest = true.
Proof.
  intros Hc H. cbn [append] in H.
  rewrite 5 contains_skip in H by reflexivity.
  rewrite contains_skip in H; [exact H |].
  cbn [startswith]. destruct (Ascii.eqb_spec " " c) as [Heq | _]; [| reflexivity].
  now destruct Hc.
Qed.

(** C10. The fields are cut at a fixed offset, one character after the
    colon of the tag.  For a line that, once stripped, is the tag followed by
    a character [c] and the text [rest]: a [PKG:] line stores [rest]
    stripped and a [SHELL:] line stores [rest] stripped, so [c] is lost
    whatever it is; a [FILE:] line with [c] other than a space and with a
    separator is accepted with the path cut from [rest].  So [PKG:x@1.0]
    stores [@1.0], [SHELL:ls] stores [s] and [FILE:a.txt => x] stores the
    path [.txt]. *)
Theorem tag_without_space_drops_character
        (st : ParseState) (raw : string) (c : ascii) (rest : string) :
  (current_section st = Some SecDependencies ->
   strip raw = "PKG:" ++ String c rest ->
   parse_line st raw = append_dependency st (strip rest)) /\
  (current_section st = Some SecCommands ->
   strip raw = "SHELL:" ++ String c rest ->
   parse_line st raw = append_command st (strip rest)) /\
  (current_section st = Some SecFiles ->
   strip raw = "FILE:" ++ String c rest ->
   c <> " "%char ->
   contains " => " (strip raw) = true ->
   exists a b,
     rest = a ++ " => " ++ b /\
     split1 " => " rest = [a; b] /\
     parse_line st raw = append_file st (mkFile (strip a) (strip b))) /\
  plan (parse (text_of ["// DEPS"; "PKG:x@1.0"])) = mkPlan [] [] ["@1.0"] /\
  plan (parse (text_of ["// COMMANDS"; "SHELL:ls"])) = mkPlan [] ["s"] [] /\
  plan (parse (text_of ["// FILES"; "FILE:a.txt => x"])) =
    mkPlan [mkFile ".txt" "x"] [] [].
Proof.
  repeat split.
  - intros Hsec Hraw. unfold parse_line. now rewrite Hraw, Hsec.
  - intros Hsec Hraw. unfold parse_line. now rewrite Hraw, Hsec.
  - intros Hsec Hraw Hc Hsep. rewrite Hraw in Hsep.
    apply separator_after_tag in Hsep; [| exact Hc].
    destruct (split1_present _ _ Hsep) as [a [b [Hsplit Hab]]].
    exists a, b. repeat split; trivial.
    unfold parse_line, parse_file_entry. rewrite Hraw, Hsec.
    change (drop 6 ("FILE:" ++ String c rest)) with rest.
    now rewrite Hsplit.
Qed.

End ParserClaims.

(** ** The executor: the shape of a run *)

Section LoopFacts.

Import Executor Observe.
Local Open Scope exec_scope.

Lemma for_each_cons {A : Type} (body : A -> M unit) (x : A) (l : list A)
      (w : World) (t : Trace) :
  for_each body (x :: l) w t =
  match body x w t with
  | (inl e, t') => (inl e, t')
  | (inr _, t') => for_each body l w t'
  end.
Proof. reflexivity. Qed.

(** One file: it goes through, or the handler logs and re-raises. *)
Lemma create_file_cases (d : Path) (f : FileArtifact) (w : World) (t : Trace) :
  create_file d f w t = (inr tt, (t ++ file_events d f)%list) \/
  exists e started,
    (started = [] \/ started = [EvMkdir (parent (joinpath d (path f))) true true]) /\
    create_file d f w t =
    (inl e, (t ++ started ++
             [EvLogError ("Error creating file " ++ path f ++ ": " ++ str_of_exc e)])%list).
Proof.
  unfold create_file, try_except, bind, mkdir, write_text, advance, logger_error,
    emit, raise.
  destruct (mkdir_raises w t (parent (joinpath d (path f)))) as [m1 |] eqn:E1.
  - right. exists (Exc m1), []. split; [now left | reflexivity].
  - destruct (write_raises w _ (joinpath d (path f)) (content f)) as [m2 |] eqn:E2.
    + right. exists (Exc m2), [EvMkdir (parent (joinpath d (path f))) true true].
      split; [now right |]. now rewrite <- app_assoc.
    + left. unfold file_events. now rewrite <- !app_assoc.
Qed.

Lemma FilesRun_cons (d : Path) (f : FileArtifact) (l : list FileArtifact)
      (r : PyExc + unit) (tr : Trace) :
  FilesRun d l r tr -> FilesRun d (f :: l) r (file_events d f ++ tr)%list.
Proof.
  intros H. destruct H as [| l1 f' l2 e started Hl Hs].
  - apply FilesDone.
  - subst l. rewrite app_assoc.
    change (file_events d f ++ flat_map (file_events d) l1)%list
      with (flat_map (file_events d) (f :: l1)).
    now apply (@FilesFailed d (f :: l1 ++ f' :: l2) (f :: l1) f' l2).
Qed.

Lemma create_files_run (d : Path) (l : list FileArtifact) (w : World) (t : Trace) :
  exists tr,
    snd (for_each (create_file d) l w t) = (t ++ tr)%list /\
    FilesRun d l (fst (for_each (create_file d) l w t)) tr.
Proof.
  revert t; induction l as [|f l IH]; intros t.
  - exists []. split; [now rewrite app_nil_r | apply FilesDone].
  - rewrite for_each_cons.
    destruct (create_file_cases d f w t) as [E | [e [started [Hs E]]]]; rewrite E.
    + destruct (IH (t ++ file_events d f)%list) as [tr [Ht Hr]].
      exists (file_events d f ++ tr)%list. split.
      * now rewrite Ht, app_assoc.
      * now apply FilesRun_cons.
    + eexists. split; [reflexivity |].
      now apply (@FilesFailed d (f :: l) [] f l).
Qed.

(** A loop whose body validates the string [g x] and then spawns it. *)
Section Checked.

Variables (k : Task) (d : Path) (A : Type) (g : A -> string) (body : A -> M unit).

Hypothesis body_cases : forall x w t,
  (accepted (g x) = true /\
   body x w t = (inr tt, (t ++ command_events k d (g x))%list)) \/
  (accepted (g x) = false /\
   body x w t =
   (inl (Exc (snd (SecurityManager.validate_command (g x)))),
    (t ++ [EvValidate (g x);
           EvLogError (snd (SecurityManager.validate_command (g x)))])%list)) \/
  (accepted (g x) = true /\
   exists e, body x w t = (inl e, (t ++ [EvValidate (g x)])%list)).

Lemma CommandsRun_cons (c : string) (cs : list string) (r : PyExc + unit)
      (tr : Trace) :
  accepted c = true ->
  CommandsRun k d cs r tr ->
  CommandsRun k d (c :: cs) r (command_events k d c ++ tr)%list.
Proof.
  intros Hc H. destruct H as [Hall | c1 c' c2 Hcs Hall Hrej | c1 c' c2 e Hcs Hall].
  - apply CommandsDone. now constructor.
  - subst cs. rewrite app_assoc.
    change (command_events k d c ++ flat_map (command_events k d) c1)%list
      with (flat_map (command_events k d) (c :: c1)).
    apply (@CommandsRejected k d (c :: c1 ++ c' :: c2) (c :: c1) c' c2); trivial.
    now constructor.
  - subst cs. rewrite app_assoc.
    change (command_events k d c ++ flat_map (command_events k d) c1)%list
      with (flat_map (command_events k d) (c :: c1)).
    apply (@CommandsLaunchFailed k d (c :: c1 ++ c' :: c2) (c :: c1) c' c2); trivial.
    simpl. now constructor.
Qed.

Lemma checked_loop_run (l : list A) (w : World) (t : Trace) :
  exists tr,
    snd (for_each body l w t) = (t ++ tr)%list /\
    CommandsRun k d (map g l) (fst (for_each body l w t)) tr.
Proof.
  revert t; induction l as [|x l IH]; intros t.
  - exists []. split; [now rewrite app_nil_r | apply CommandsDone; constructor].
  - rewrite for_each_cons.
    destruct (body_cases x w t) as [[Hx E] | [[Hx E] | [Hx [e E]]]]; rewrite E.
    + destruct (IH (t ++ command_events k d (g x))%list) as [tr [Ht Hr]].
      exists (command_events k d (g x) ++ tr)%list. split.
      * now rewrite Ht, app_assoc.
      * now apply CommandsRun_cons.
    + eexists. split; [reflexivity |].
      apply (@CommandsRejected k d (map g (x :: l)) [] (g x) (map g l));
        trivial; constructor.
    + eexists. split; [reflexivity |].
      apply (@CommandsLaunchFailed k d (map g (x :: l)) [] (g x) (map g l));
        trivial. now repeat constructor.
Qed.

End Checked.

Lemma install_dependency_cases (d : Path) (pkg : string) (w : World) (t : Trace) :
  (accepted (install_command pkg) = true /\
   install_dependency d pkg w t =
   (inr tt, (t ++ command_events DepTask d (install_command pkg))%list)) \/
  (accepted (install_command pkg) = false /\
   install_dependency d pkg w t =
   (inl (Exc (snd (SecurityManager.validate_command (install_command pkg)))),
    (t ++ [EvValidate (install_command pkg);
           EvLogError (snd (SecurityManager.validate_command (install_command pkg)))])%list)) \/
  (accepted (install_command pkg) = true /\
   exists e, install_dependency d pkg w t =
             (inl e, (t ++ [EvValidate (install_command pkg)])%list)).
Proof.
  unfold install_dependency, install_command.
  generalize ("npm install " ++ pkg). intros c.
  unfold accepted, validate_command, bind, subprocess_run, advance,
    logger_error, emit, raise, ret.
  destruct (SecurityManager.validate_command c) as [valid msg]; simpl.
  destruct valid; simpl.
  - destruct (run_raises w (t ++ [EvValidate c])%list c d) as [m |] eqn:E.
    + right; right. split; [reflexivity |]. now exists (Exc m).
    + left. split; [reflexivity |]. unfold command_events.
      now rewrite <- !app_assoc.
  - right; left. split; [reflexivity |]. now rewrite <- app_assoc.
Qed.

Lemma run_setup_command_cases (d : Path) (cmd : string) (w : World) (t : Trace) :
  (accepted cmd = true /\
   run_setup_command d cmd w t =
   (inr tt, (t ++ command_events CmdTask d cmd)%list)) \/
  (accepted cmd = false /\
   run_setup_command d cmd w t =
   (inl (Exc (snd (SecurityManager.validate_command cmd))),
    (t ++ [EvValidate cmd;
           EvLogError (snd (SecurityManager.validate_command cmd))])%list)) \/
  (accepted cmd = true /\
   exists e, run_setup_command d cmd w t = (inl e, (t ++ [EvValidate cmd])%list)).
Proof.
  unfold run_setup_command, accepted, validate_command, bind,
    subprocess_run, advance, logger_error, emit, raise, ret.
  destruct (SecurityManager.validate_command cmd) as [valid msg]; simpl.
  destruct valid; simpl.
  - destruct (run_raises w (t ++ [EvValidate cmd])%list cmd d) as [m |] eqn:E.
    + right; right. split; [reflexivity |]. now exists (Exc m).
    + left. split; [reflexivity |]. unfold command_events.
      now rewrite <- !app_assoc.
  - right; left. split; [reflexivity |]. now rewrite <- app_assoc.
Qed.

Lemma install_dependencies_run (d : Path) (l : list string) (w : World) (t : Trace) :
  exists tr,
    snd (for_each (install_dependency d) l w t) = (t ++ tr)%list /\
    CommandsRun DepTask d (map install_command l)
                (fst (for_each (install_dependency d) l w t)) tr.
Proof. apply checked_loop_run. apply install_dependency_cases. Qed.

Lemma run_setup_commands_run (d : Path) (l : list string) (w : World) (t : Trace) :
  exists tr,
    snd (for_each (run_setup_command d) l w t) = (t ++ tr)%list /\
    CommandsRun CmdTask d l (fst (for_each (run_setup_command d) l w t)) tr.
Proof.
  destruct (@checked_loop_run CmdTask d string (fun c => c) (run_setup_command d)
              (run_setup_command_cases d) l w t) as [tr [Ht Hr]].
  exists tr. split; [exact Ht |]. now rewrite map_id in Hr.
Qed.

End LoopFacts.

Section RunShape.

Import Executor Observe.

(** Every run of [_execute_plan], in every world, has one of the four
    shapes of [PlanRun]. *)
Lemma execute_shape (w : World) (self : ProjectArchitect) :
  PlanRun self (fst (execute w self)) (snd (execute w self)).
Proof.
  unfold execute, _execute_plan.
  set (d := project_dir_of self).
  set (fs := files (execution_plan self)).
  set (ds := dependencies (execution_plan self)).
  set (cs := commands (execution_plan self)).
  unfold bind, try_except, mkdir, add_task, logger_error, emit, raise.
  destruct (mkdir_raises w [] d) as [m |]; simpl.
  - apply (@StopAtRoot self (Exc m)).
  - destruct (create_files_run d fs w [EvMkdir d false true; EvAddTask FileTask (List.length fs)])
      as [tf [Hf Rf]].
    destruct (for_each (create_file d) fs w _) as [[e | []] t1]; simpl in Hf, Rf; subst t1.
    + now apply StopInFiles.
    + destruct (install_dependencies_run d ds w
                  (([EvMkdir d false true; EvAddTask FileTask (List.length fs)] ++ tf) ++
                   [EvAddTask DepTask (List.length ds)])%list)
        as [td [Hd Rd]].
      destruct (for_each (install_dependency d) ds w _) as [[e | []] t2];
        simpl in Hd, Rd; subst t2.
      * simpl. rewrite <- app_assoc. now apply StopInDependencies.
      * destruct (run_setup_commands_run d cs w
                    (((([EvMkdir d false true; EvAddTask FileTask (List.length fs)] ++ tf) ++
                       [EvAddTask DepTask (List.length ds)]) ++ td) ++
                     [EvAddTask CmdTask (List.length cs)])%list)
          as [tc [Hc Rc]].
        destruct (for_each (run_setup_command d) cs w _) as [r t3];
          simpl in Hc, Rc; subst t3.
        simpl. rewrite <- !app_assoc. simpl. now apply IntoCommands.
Qed.

End RunShape.

(** ** The executor: what the shapes show *)

Section TraceFacts.

Import Executor Observe.

Lemma pick_app {A B : Type} (f : A -> option B) (a b : list A) :
  pick f (a ++ b) = (pick f a ++ pick f b)%list.
Proof.
  induction a as [|x a IH]; simpl; [reflexivity |].
  destruct (f x); simpl; now rewrite IH.
Qed.

Lemma Prefix_refl {A : Type} (a : list A) : Prefix a a.
Proof. exists []. now rewrite app_nil_r. Qed.

Lemma Prefix_nil {A : Type} (a : list A) : Prefix [] a.
Proof. now exists a. Qed.

Lemma Prefix_app_r {A : Type} (a b c : list A) : Prefix a b -> Prefix a (b ++ c).
Proof. intros [x ->]. exists (x ++ c)%list. now rewrite app_assoc. Qed.

Lemma Prefix_app_l {A : Type} (a b c : list A) : Prefix a b -> Prefix (c ++ a) (c ++ b).
Proof. intros [x ->]. exists x. now rewrite app_assoc. Qed.

Lemma Prefix_trans {A : Type} (a b c : list A) : Prefix a b -> Prefix b c -> Prefix a c.
Proof. intros [x ->] [y ->]. exists (x ++ y)%list. now rewrite app_assoc. Qed.

Lemma writes_of_files (d : Path) (l : list FileArtifact) :
  writes_of (flat_map (file_events d) l) = map (target d) l.
Proof. induction l as [|f l IH]; simpl; [reflexivity | now rewrite <- IH]. Qed.

Lemma files_no_commands (d : Path) (l : list FileArtifact) :
  runs_of (flat_map (file_events d) l) = [] /\
  validates_of (flat_map (file_events d) l) = [] /\
  tasks_of (flat_map (file_events d) l) = [] /\
  forallb (fun e => negb (handles_command e)) (flat_map (file_events d) l) = true.
Proof. induction l as [|f l IH]; simpl; [now repeat split | exact IH]. Qed.

Lemma commands_of_events (k : Task) (d : Path) (cs : list string) :
  runs_of (flat_map (command_events k d) cs) = cs /\
  validates_of (flat_map (command_events k d) cs) = cs /\
  writes_of (flat_map (command_events k d) cs) = [] /\
  tasks_of (flat_map (command_events k d) cs) = [] /\
  forallb (fun e => negb (touches_files e)) (flat_map (command_events k d) cs) = true.
Proof.
  induction cs as [|c cs [H1 [H2 [H3 [H4 H5]]]]]; simpl; [now repeat split |].
  unfold runs_of, validates_of in *. simpl. now rewrite H1, H2.
Qed.

Lemma Guarded_app (d : Path) (a b : Trace) :
  Guarded d a -> Guarded d b -> Guarded d (a ++ b)%list.
Proof.
  intros Ha Hb. induction Ha as [| c t Hc Ht IH | e t He Ht IH]; simpl.
  - exact Hb.
  - now apply GuardedRun.
  - now apply GuardedOther.
Qed.

Lemma Guarded_files (d d' : Path) (l : list FileArtifact) :
  Guarded d' (flat_map (file_events d) l).
Proof.
  induction l as [|f l IH]; simpl; [apply GuardedNil |].
  now repeat (apply GuardedOther; [reflexivity |]).
Qed.

Lemma Guarded_commands (k : Task) (d : Path) (cs : list string) :
  Forall (fun c => accepted c = true) cs ->
  Guarded d (flat_map (command_events k d) cs).
Proof.
  induction 1 as [| c cs Hc Hcs IH]; simpl; [apply GuardedNil |].
  apply GuardedRun; [exact Hc |]. now apply GuardedOther.
Qed.

(** What [Guarded] says, position by position. *)
Lemma Guarded_split (d : Path) (t : Trace) :
  Guarded d t ->
  forall t1 t2 c d', t = (t1 ++ EvRun c d' :: t2)%list ->
  exists t0, t1 = (t0 ++ [EvValidate c])%list /\ accepted c = true /\ d' = d.
Proof.
  induction 1 as [| c0 t Hc Ht IH | e t He Ht IH]; intros t1 t2 c d' E.
  - now destruct t1.
  - destruct t1 as [|e1 t1]; [discriminate |].
    destruct t1 as [|e2 t1]; simpl in E; inversion E; subst.
    + now exists [].
    + destruct (IH _ _ _ _ eq_refl) as [t0 [-> [Ha Hd]]].
      now exists (EvValidate c0 :: EvRun c0 d :: t0).
  - destruct t1 as [|e1 t1]; simpl in E; inversion E; subst.
    + discriminate.
    + destruct (IH _ _ _ _ eq_refl) as [t0 [-> [Ha Hd]]].
      now exists (e1 :: t0).
Qed.

(** Events that create no task are passed over when a stage is looked for. *)
Lemma stage_skip (k : Task) (a b : Trace) :
  tasks_of a = [] ->
  before_stage k (a ++ b)%list = (a ++ before_stage k b)%list /\
  from_stage k (a ++ b)%list = from_stage k b /\
  entered k (a ++ b)%list = entered k b.
Proof.
  induction a as [|e a IH]; intros H; [now repeat split |].
  destruct e; try discriminate H;
    destruct (IH H) as [H1 [H2 H3]]; simpl; now rewrite H1, H2, H3.
Qed.

Lemma stage_absent (k : Task) (a : Trace) :
  tasks_of a = [] ->
  before_stage k a = a /\ from_stage k a = [] /\ entered k a = false.
Proof.
  intros H. destruct (stage_skip k a [] H) as [H1 [H2 H3]].
  rewrite app_nil_r in *. simpl in *. now rewrite app_nil_r in H1.
Qed.

Lemma FilesRun_facts (d : Path) (l : list FileArtifact) (r : PyExc + unit) (tf : Trace) :
  FilesRun d l r tf ->
  Prefix (writes_of tf) (map (target d) l) /\
  (r = inr tt -> tf = flat_map (file_events d) l) /\
  runs_of tf = [] /\ validates_of tf = [] /\ tasks_of tf = [] /\
  forallb (fun e => negb (handles_command e)) tf = true /\
  (forall d', Guarded d' tf).
Proof.
  intros H. destruct H as [| l1 f l2 e started Hl Hs].
  - destruct (files_no_commands d l) as [H1 [H2 [H3 H4]]].
    rewrite writes_of_files. repeat split; trivial.
    + apply Prefix_refl.
    + intros d'. apply Guarded_files.
  - destruct (files_no_commands d l1) as [H1 [H2 [H3 H4]]].
    unfold writes_of, runs_of, validates_of, tasks_of in *.
    rewrite !pick_app, forallb_app, H1, H2, H3, H4.
    fold (writes_of (flat_map (file_events d) l1)). rewrite writes_of_files.
    subst l. rewrite map_app.
    destruct Hs as [-> | ->]; simpl; rewrite ?app_nil_r;
      (repeat split; [now apply Prefix_app_r, Prefix_refl | discriminate |]);
      intros d'; apply Guarded_app; try apply Guarded_files;
        repeat (apply GuardedOther; [reflexivity |]); apply GuardedNil.
Qed.

Lemma CommandsRun_facts (k : Task) (d : Path) (cs : list string)
      (r : PyExc + unit) (tc : Trace) :
  CommandsRun k d cs r tc ->
  Prefix (validates_of tc) cs /\
  Prefix (runs_of tc) (validates_of tc) /\
  (r = inr tt -> tc = flat_map (command_events k d) cs /\
                 Forall (fun c => accepted c = true) cs) /\
  writes_of tc = [] /\ tasks_of tc = [] /\
  forallb (fun e => negb (touches_files e)) tc = true /\
  Guarded d tc.
Proof.
  intros H. destruct H as [Hall | c1 c c2 Hcs Hall Hrej | c1 c c2 e Hcs Hall].
  - destruct (commands_of_events k d cs) as [H1 [H2 [H3 [H4 H5]]]].
    rewrite H1, H2. repeat split; trivial; try apply Prefix_refl.
    now apply Guarded_commands.
  - destruct (commands_of_events k d c1) as [H1 [H2 [H3 [H4 H5]]]].
    unfold writes_of, runs_of, validates_of, tasks_of in *.
    rewrite !pick_app, forallb_app, H1, H2, H3, H4, H5. simpl.
    rewrite app_nil_r. subst cs. repeat split; try discriminate.
    + exists c2. now rewrite <- app_assoc.
    + now exists [c].
    + apply Guarded_app; [now apply Guarded_commands |].
      repeat (apply GuardedOther; [reflexivity |]). apply GuardedNil.
  - destruct (commands_of_events k d c1) as [H1 [H2 [H3 [H4 H5]]]].
    unfold writes_of, runs_of, validates_of, tasks_of in *.
    rewrite !pick_app, forallb_app, H1, H2, H3, H4, H5. simpl.
    rewrite app_nil_r. subst cs. repeat split; try discriminate.
    + exists c2. now rewrite <- app_assoc.
    + now exists [c].
    + apply Guarded_app.
      * apply Guarded_commands. apply Forall_app in Hall. tauto.
      * repeat (apply GuardedOther; [reflexivity |]). apply GuardedNil.
Qed.

End TraceFacts.

(** ** The executor: runs in which nothing fails *)

Section CalmRuns.

Import Executor Observe.

Lemma for_each_app {A : Type} (body : A -> M unit) (a b : list A)
      (w : World) (t : Trace) :
  for_each body (a ++ b) w t =
  match for_each body a w t with
  | (inl e, t') => (inl e, t')
  | (inr _, t') => for_each body b w t'
  end.
Proof.
  revert t; induction a as [|x a IH]; intros t; [reflexivity |].
  simpl app. rewrite !for_each_cons.
  destruct (body x w t) as [[e | u] t']; [reflexivity | apply IH].
Qed.

Lemma calm_create_files (w : World) (d : Path) (l : list FileArtifact) (t : Trace) :
  calm w ->
  for_each (create_file d) l w t = (inr tt, (t ++ flat_map (file_events d) l)%list).
Proof.
  intros [Hm [Hw _]]. revert t; induction l as [|f l IH]; intros t.
  - simpl. now rewrite app_nil_r.
  - rewrite for_each_cons.
    assert (create_file d f w t = (inr tt, (t ++ file_events d f)%list)) as ->.
    { unfold create_file, try_except, bind, mkdir, write_text, advance, emit.
      rewrite Hm. cbv beta iota. rewrite Hw. cbv beta iota.
      unfold file_events. now rewrite <- !app_assoc. }
    rewrite IH. now rewrite <- app_assoc.
Qed.

Lemma calm_install (w : World) (d : Path) (l : list string) (t : Trace) :
  calm w ->
  Forall (fun c => accepted c = true) (map install_command l) ->
  for_each (install_dependency d) l w t =
  (inr tt, (t ++ flat_map (command_events DepTask d) (map install_command l))%list).
Proof.
  intros [_ [_ Hr]] Hall. revert t; induction l as [|p l IH]; intros t.
  - simpl. now rewrite app_nil_r.
  - inversion_clear Hall as [|? ? Hp Hl]. rewrite for_each_cons.
    assert (install_dependency d p w t =
            (inr tt, (t ++ command_events DepTask d (install_command p))%list)) as ->.
    { revert Hp. unfold install_dependency, install_command.
      generalize ("npm install " ++ p). intros c Hc.
      unfold validate_command, bind, subprocess_run, advance, logger_error,
        emit, raise, ret.
      unfold accepted in Hc.
      destruct (SecurityManager.validate_command c) as [valid msg].
      simpl in Hc. subst valid. cbv beta iota. change (negb true) with false. cbv beta iota.
      rewrite Hr. cbv beta iota. unfold command_events.
      now rewrite <- !app_assoc. }
    rewrite (IH Hl). now rewrite <- app_assoc.
Qed.

Lemma rejected_setup_command (w : World) (d : Path) (c : string) (t : Trace) :
  accepted c = false ->
  run_setup_command d c w t =
  (inl (Exc (snd (SecurityManager.validate_command c))),
   (t ++ [EvValidate c; EvLogError (snd (SecurityManager.validate_command c))])%list).
Proof.
  intros H. destruct (run_setup_command_cases d c w t)
    as [[Hx _] | [[_ E] | [Hx _]]]; congruence.
Qed.

Lemma calm_setup (w : World) (d : Path) (l : list string) (t : Trace) :
  calm w ->
  Forall (fun c => accepted c = true) l ->
  for_each (run_setup_command d) l w t =
  (inr tt, (t ++ flat_map (command_events CmdTask d) l)%list).
Proof.
  intros [_ [_ Hr]] Hall. revert t; induction Hall as [|c l Hc Hl IH]; intros t.
  - simpl. now rewrite app_nil_r.
  - rewrite for_each_cons.
    assert (run_setup_command d c w t =
            (inr tt, (t ++ command_events CmdTask d c)%list)) as ->.
    { unfold run_setup_command, validate_command, bind, subprocess_run, advance,
        logger_error, emit, raise, ret.
      unfold accepted in Hc.
      destruct (SecurityManager.validate_command c) as [valid msg].
      simpl in Hc. subst valid. cbv beta iota. change (negb true) with false. cbv beta iota.
      rewrite Hr. cbv beta iota. unfold command_events.
      now rewrite <- !app_assoc. }
    rewrite IH. now rewrite <- app_assoc.
Qed.

(** The run up to the third [add_task], when nothing fails in stages 1
    and 2. *)
Lemma calm_execute (w : World) (self : ProjectArchitect) :
  calm w ->
  Forall (fun c => accepted c = true)
         (map install_command (dependencies (execution_plan self))) ->
  execute w self =
  for_each (run_setup_command (project_dir_of self))
           (commands (execution_plan self)) w (full_trace self []).
Proof.
  intros Hcalm Hall. unfold execute, _execute_plan.
  set (d := project_dir_of self).
  unfold bind at 1. unfold try_except, mkdir.
  destruct Hcalm as [Hm Hrest]. rewrite Hm.
  unfold bind at 1. unfold add_task at 1, emit at 1.
  unfold bind at 1. rewrite calm_create_files by (split; trivial).
  unfold bind at 1. unfold add_task at 1, emit at 1.
  unfold bind at 1. rewrite calm_install by (trivial; split; trivial).
  unfold bind at 1. unfold add_task at 1, emit at 1.
  f_equal. unfold full_trace. simpl. now rewrite <- !app_assoc.
Qed.

End CalmRuns.

(** ** The executor: the stages of a run *)

Section StageFacts.

Import Executor Observe.

Lemma before_stage_skip (k : Task) (a b : Trace) :
  tasks_of a = [] -> before_stage k (a ++ b)%list = (a ++ before_stage k b)%list.
Proof. intros H. now destruct (stage_skip k a b H). Qed.

Lemma from_stage_skip (k : Task) (a b : Trace) :
  tasks_of a = [] -> from_stage k (a ++ b)%list = from_stage k b.
Proof. intros H. now destruct (stage_skip k a b H) as [_ [? _]]. Qed.

Lemma entered_skip (k : Task) (a b : Trace) :
  tasks_of a = [] -> entered k (a ++ b)%list = entered k b.
Proof. intros H. now destruct (stage_skip k a b H) as [_ [_ ?]]. Qed.

Lemma writes_of_app (a b : Trace) :
  writes_of (a ++ b) = (writes_of a ++ writes_of b)%list.
Proof. apply pick_app. Qed.

Lemma runs_of_app (a b : Trace) : runs_of (a ++ b) = (runs_of a ++ runs_of b)%list.
Proof. apply pick_app. Qed.

Lemma validates_of_app (a b : Trace) :
  validates_of (a ++ b) = (validates_of a ++ validates_of b)%list.
Proof. apply pick_app. Qed.

Lemma tasks_of_app (a b : Trace) : tasks_of (a ++ b) = (tasks_of a ++ tasks_of b)%list.
Proof. apply pick_app. Qed.

End StageFacts.

(** ** The executor: stage by stage *)

Import Executor Observe.

Ltac stage_facts :=
  repeat match goal with
         | H : FilesRun _ _ _ _ |- _ =>
             apply FilesRun_facts in H;
             destruct H as (? & ? & ? & ? & ? & ? & ?)
         | H : CommandsRun _ _ _ _ _ |- _ =>
             apply CommandsRun_facts in H;
             destruct H as (? & ? & ? & ? & ? & ? & ?)
         end;
  repeat match goal with
         | H : inr tt = inr tt -> _ /\ _ |- _ =>
             destruct (H eq_refl) as [? ?]; clear H; subst
         | H : inr tt = inr tt -> _ |- _ => specialize (H eq_refl); subst
         | H : inl _ = inr tt -> _ |- _ => clear H
         end;
  repeat match goal with
         | |- context [flat_map (file_events ?d) ?l] =>
             lazymatch goal with
             | _ : writes_of (flat_map (file_events d) l) = _ |- _ => fail
             | _ => pose proof (writes_of_files d l)
             end
         | |- context [flat_map (command_events ?k ?d) ?l] =>
             lazymatch goal with
             | _ : runs_of (flat_map (command_events k d) l) = _ |- _ => fail
             | _ => destruct (commands_of_events k d l) as (? & ? & ? & ? & ?)
             end
         end.

Lemma before_stage_absent (k : Task) (a : Trace) :
  tasks_of a = [] -> before_stage k a = a.
Proof. intros H. now destruct (stage_absent k a H). Qed.

Lemma from_stage_absent (k : Task) (a : Trace) :
  tasks_of a = [] -> from_stage k a = [].
Proof. intros H. now destruct (stage_absent k a H) as [_ [? _]]. Qed.

Lemma entered_absent (k : Task) (a : Trace) :
  tasks_of a = [] -> entered k a = false.
Proof. intros H. now destruct (stage_absent k a H) as [_ [_ ?]]. Qed.

Ltac trace_norm :=
  unfold writes_of, runs_of, validates_of, tasks_of in *;
  repeat (simpl;
          rewrite ?before_stage_skip, ?from_stage_skip, ?entered_skip by assumption;
          rewrite ?pick_app, ?forallb_app);
  rewrite ?before_stage_absent, ?from_stage_absent, ?entered_absent by assumption;
  repeat match goal with
         | H : pick _ _ = _ |- _ => rewrite H
         | H : forallb _ _ = _ |- _ => rewrite H
         end;
  simpl; rewrite ?app_nil_r.

Ltac prefix_solve :=
  first [ assumption
        | apply Prefix_nil
        | apply Prefix_refl
        | now (eexists; reflexivity)
        | now apply Prefix_app_r
        | now apply Prefix_app_l
        | now (apply Prefix_app_r; apply Prefix_refl) ].

Ltac guarded_solve :=
  repeat first [ assumption
               | apply GuardedNil
               | apply Guarded_app
               | apply Guarded_files
               | (apply GuardedOther; [reflexivity |])
               | match goal with H : forall d', Guarded d' _ |- _ => apply H end ].

Lemma PlanRun_order (self : ProjectArchitect) (r : PyExc + unit) (tr : Trace) :
  PlanRun self r tr ->
  Prefix (tasks_of tr) [FileTask; DepTask; CmdTask] /\
  Prefix (writes_of tr)
         (map (target (project_dir_of self)) (files (execution_plan self))) /\
  Prefix (validates_of tr)
         (map install_command (dependencies (execution_plan self)) ++
          commands (execution_plan self)) /\
  Prefix (runs_of tr) (validates_of tr) /\
  Guarded (project_dir_of self) tr.
Proof.
  intros H. destruct H as [e | e tf Hf | e tf td Hf Hd | r tf td tc Hf Hd Hc];
    stage_facts; trace_norm; repeat split; try prefix_solve; try guarded_solve.
Qed.

Lemma PlanRun_stage2 (self : ProjectArchitect) (r : PyExc + unit) (tr : Trace) :
  PlanRun self r tr ->
  forallb (fun e => negb (handles_command e)) (before_stage DepTask tr) = true /\
  (entered DepTask tr = true ->
   writes_of (before_stage DepTask tr) =
   map (target (project_dir_of self)) (files (execution_plan self))) /\
  forallb (fun e => negb (touches_files e)) (from_stage DepTask tr) = true.
Proof.
  intros H. destruct H as [e | e tf Hf | e tf td Hf Hd | r tf td tc Hf Hd Hc];
    stage_facts; trace_norm; repeat split; trivial; try discriminate.
Qed.

Lemma PlanRun_stage3 (self : ProjectArchitect) (r : PyExc + unit) (tr : Trace) :
  PlanRun self r tr ->
  Prefix (validates_of (before_stage CmdTask tr))
         (map install_command (dependencies (execution_plan self))) /\
  Prefix (runs_of (before_stage CmdTask tr)) (validates_of (before_stage CmdTask tr)) /\
  (entered CmdTask tr = true ->
   runs_of (before_stage CmdTask tr) =
     map install_command (dependencies (execution_plan self)) /\
   writes_of tr =
     map (target (project_dir_of self)) (files (execution_plan self))) /\
  forallb (fun e => negb (touches_files e)) (from_stage CmdTask tr) = true /\
  ((entered CmdTask tr = false /\ from_stage CmdTask tr = [] /\ r <> inr tt) \/
   (entered CmdTask tr = true /\
    CommandsRun CmdTask (project_dir_of self) (commands (execution_plan self)) r
                (from_stage CmdTask tr))).
Proof.
  intros H. destruct H as [e | e tf Hf | e tf td Hf Hd | r tf td tc Hf Hd Hc];
    try pose proof (fun _ : unit => Hc) as Keep; stage_facts; trace_norm;
    repeat split; try prefix_solve; try discriminate;
    first [ left; repeat split; discriminate
          | right; split; [reflexivity | exact (Keep tt)] ].
Qed.


Section PathFacts.

Lemma walk_app (dir a b : list string) : walk dir (a ++ b)%list = walk (walk dir a) b.
Proof.
  revert dir; induction a as [|p a IH]; intros dir; simpl; [reflexivity |].
  destruct (String.eqb p ".."); apply IH.
Qed.

Lemma walk_stays_below (ps dir base : list string) :
  stays_below (List.length dir) ps = true ->
  walk (dir ++ base)%list ps = (walk dir ps ++ base)%list.
Proof.
  revert dir; induction ps as [|p ps IH]; intros dir H; simpl in *; [reflexivity |].
  destruct (String.eqb p "..").
  - destruct dir as [|x dir]; simpl in H; [discriminate |]. simpl. now apply IH.
  - apply (IH (p :: dir)). exact H.
Qed.

Lemma is_prefix_app (a b : list string) : is_prefix a (a ++ b)%list = true.
Proof.
  induction a as [|x a IH]; simpl; [reflexivity |].
  now rewrite String.eqb_refl.
Qed.

(** Joining a confined path string to a directory gives a path inside it. *)
Lemma joinpath_confined (cwd : list string) (d : Path) (s : string) :
  confined s = true -> inside cwd d (joinpath d s) = true.
Proof.
  unfold confined, inside, joinpath. intros H.
  apply andb_true_iff in H as [Hrel Hstay].
  apply negb_true_iff in Hrel. rewrite Hrel.
  unfold locate, is_absolute. simpl.
  rewrite walk_app.
  set (base := walk (if negb (anchor d =? "") then [] else rev cwd) (parts d)).
  change base with ([] ++ base)%list at 2.
  rewrite walk_stays_below by exact Hstay.
  rewrite rev_app_distr. apply is_prefix_app.
Qed.

End PathFacts.

Lemma Prefix_In {A : Type} (a b : list A) (x : A) : Prefix a b -> In x a -> In x b.
Proof. intros [c ->] H. apply in_or_app. now left. Qed.

(** C3, as amended.  Every file write of stage 1 is the write of a file [f]
    of the plan, at the path [project_dir / path f] and with the content of
    [f].  It lands inside the project directory when the path string of [f]
    is confined: relative, and never stepping above its start through [".."]
    segments.  The executor makes no check on the other paths. *)
Theorem stage1_writes_inside_root_when_confined
        (w : World) (self : ProjectArchitect) (cwd : list string)
        (p : Path) (data : string) :
  In (p, data) (writes_of (run_trace w self)) ->
  exists f,
    In f (files (execution_plan self)) /\
    p = joinpath (project_dir_of self) (path f) /\
    data = content f /\
    (confined (path f) = true -> inside cwd (project_dir_of self) p = true).
Proof.
  unfold run_trace. intros H.
  pose proof (execute_shape w self) as R.
  apply PlanRun_order in R. destruct R as [_ [Hw _]].
  eapply Prefix_In in H; [| exact Hw]. apply in_map_iff in H as [f [Hf Hin]].
  injection Hf as <- <-. exists f. repeat split; trivial.
  apply joinpath_confined.
Qed.

Lemma stage1_writes_inside_root_when_confined_witness :
  exists f,
    In f (files (execution_plan Examples.demo_plan)) /\
    mkPath "" ["demo"; "src"; "a.txt"] =
      joinpath (project_dir_of Examples.demo_plan) (path f) /\
    "hi" = content f /\
    (confined (path f) = true ->
     inside ["home"; "user"] (project_dir_of Examples.demo_plan)
            (mkPath "" ["demo"; "src"; "a.txt"]) = true).
Proof.
  apply (@stage1_writes_inside_root_when_confined
           (quiet 0) Examples.demo_plan ["home"; "user"]
           (mkPath "" ["demo"; "src"; "a.txt"]) "hi").
  vm_compute. left. reflexivity.
Defined.

(** C3, as stated, fails: with the working directory [/home/user] and the
    project directory [demo], the file [../outside.txt] is written at
    [/home/user/outside.txt] and the file [/tmp/abs.txt] at [/tmp/abs.txt],
    both outside [/home/user/demo]. *)
Lemma stage1_write_escapes_root :
  In (mkPath "" ["demo"; ".."; "outside.txt"], "x")
     (writes_of (run_trace (quiet 0) Examples.escaping_plan)) /\
  inside ["home"; "user"] (project_dir_of Examples.escaping_plan)
         (mkPath "" ["demo"; ".."; "outside.txt"]) = false /\
  locate ["home"; "user"] (mkPath "" ["demo"; ".."; "outside.txt"]) =
    ["home"; "user"; "outside.txt"] /\
  In (mkPath "/" ["tmp"; "abs.txt"], "y")
     (writes_of (run_trace (quiet 0) Examples.escaping_plan)) /\
  inside ["home"; "user"] (project_dir_of Examples.escaping_plan)
         (mkPath "/" ["tmp"; "abs.txt"]) = false.
Proof. vm_compute. intuition. Qed.



Ltac run_facts w self :=
  let R := fresh "R" in
  pose proof (execute_shape w self) as R;
  let R1 := fresh "R" in pose proof R as R1; apply PlanRun_order in R1;
  let R2 := fresh "R" in pose proof R as R2; apply PlanRun_stage2 in R2;
  apply PlanRun_stage3 in R;
  destruct R1 as (? & ? & ? & ? & ?);
  destruct R2 as (? & ? & ?);
  destruct R as (? & ? & ? & ? & ?).

Section ExecutorClaims.

Lemma Guarded_runs_accepted (d : Path) (t : Trace) :
  Guarded d t -> Forall (fun c => accepted c = true) (runs_of t).
Proof.
  induction 1 as [| c t Hc Ht IH | e t He Ht IH]; unfold runs_of in *; simpl.
  - constructor.
  - now constructor.
  - now rewrite He.
Qed.

(** C5.  In every run the three progress tasks are created in the order
    files, dependencies, commands; the files are written and the processes
    spawned one after the other in the order of the plan (installs first,
    then setup commands).  Before the dependency stage is entered nothing is
    validated or spawned, when it is entered every file of the plan has been
    written, and after it no file-system call is made.  Before the command
    stage is entered only install commands are spawned, when it is entered
    every dependency has been installed, and after it the processes spawned
    are the setup commands, in order. *)
Theorem stages_run_in_order (w : World) (self : ProjectArchitect) :
  Prefix (tasks_of (run_trace w self)) [FileTask; DepTask; CmdTask] /\
  Prefix (writes_of (run_trace w self))
         (map (target (project_dir_of self)) (files (execution_plan self))) /\
  Prefix (runs_of (run_trace w self))
         (map install_command (dependencies (execution_plan self)) ++
          commands (execution_plan self)) /\
  forallb (fun e => negb (handles_command e))
          (before_stage DepTask (run_trace w self)) = true /\
  (entered DepTask (run_trace w self) = true ->
   writes_of (before_stage DepTask (run_trace w self)) =
   map (target (project_dir_of self)) (files (execution_plan self))) /\
  forallb (fun e => negb (touches_files e))
          (from_stage DepTask (run_trace w self)) = true /\
  Prefix (runs_of (before_stage CmdTask (run_trace w self)))
         (map install_command (dependencies (execution_plan self))) /\
  (entered CmdTask (run_trace w self) = true ->
   runs_of (before_stage CmdTask (run_trace w self)) =
   map install_command (dependencies (execution_plan self))) /\
  Prefix (runs_of (from_stage CmdTask (run_trace w self)))
         (commands (execution_plan self)).
Proof.
  unfold run_trace. run_facts w self.
  repeat split; trivial.
  - eapply Prefix_trans; eassumption.
  - eapply Prefix_trans; eassumption.
  - intros E. tauto.
  - match goal with H : _ \/ _ |- _ => destruct H as [[_ [-> _]] | [_ Hc]] end.
    + apply Prefix_nil.
    + apply CommandsRun_facts in Hc. destruct Hc as (? & ? & _).
      eapply Prefix_trans; eassumption.
Qed.

(** C6.  In every run, each spawn comes directly after the validation of
    the very string it spawns, that string was accepted, and the process
    runs in the project directory; so every spawned string is an accepted
    one.  The strings validated before the command stage are the install
    commands [npm install <pkg>] of the dependencies in order, those
    validated after it are the setup commands in order, and in each stage
    the strings spawned are an initial segment of the strings validated. *)
Theorem spawn_only_after_acceptance (w : World) (self : ProjectArchitect) :
  (forall (t1 t2 : Trace) (c : string) (d : Path),
      run_trace w self = (t1 ++ EvRun c d :: t2)%list ->
      exists t0, t1 = (t0 ++ [EvValidate c])%list /\
                 accepted c = true /\ d = project_dir_of self) /\
  Forall (fun c => accepted c = true) (runs_of (run_trace w self)) /\
  Prefix (validates_of (before_stage CmdTask (run_trace w self)))
         (map install_command (dependencies (execution_plan self))) /\
  Prefix (runs_of (before_stage CmdTask (run_trace w self)))
         (validates_of (before_stage CmdTask (run_trace w self))) /\
  Prefix (validates_of (from_stage CmdTask (run_trace w self)))
         (commands (execution_plan self)) /\
  Prefix (runs_of (from_stage CmdTask (run_trace w self)))
         (validates_of (from_stage CmdTask (run_trace w self))).
Proof.
  unfold run_trace. run_facts w self.
  repeat split; trivial.
  - intros t1 t2 c d E. eapply Guarded_split; eassumption.
  - eapply Guarded_runs_accepted; eassumption.
  - match goal with H : _ \/ _ |- _ => destruct H as [[_ [-> _]] | [_ Hc]] end.
    + apply Prefix_nil.
    + apply CommandsRun_facts in Hc. tauto.
  - match goal with H : _ \/ _ |- _ => destruct H as [[_ [-> _]] | [_ Hc]] end.
    + apply Prefix_nil.
    + apply CommandsRun_facts in Hc. tauto.
Qed.

End ExecutorClaims.

Section AbortFacts.

Lemma Prefix_before_rejected (l l2 p : list string) (y : string) (q : list string) :
  Forall (fun c => accepted c = true) l ->
  (l ++ l2)%list = (p ++ y :: q)%list ->
  accepted y = false ->
  Prefix l p.
Proof.
  intros Hall. revert p. induction Hall as [|a l Ha Hl IH]; intros p E Hy.
  - apply Prefix_nil.
  - destruct p as [|b p]; simpl in E; injection E as -> E.
    + congruence.
    + destruct (IH p E Hy) as [x ->]. now exists x.
Qed.

(** A stage whose list holds a rejected command stops at it or before it. *)
Lemma CommandsRun_rejected (k : Task) (d : Path) (pre : list string) (c : string)
      (post : list string) (r : PyExc + unit) (tc : Trace) :
  CommandsRun k d (pre ++ c :: post) r tc ->
  accepted c = false ->
  r <> inr tt /\
  Prefix (validates_of tc) (pre ++ [c]) /\
  Prefix (runs_of tc) pre.
Proof.
  intros H Hc. inversion H as [Hall | c1 c' c2 Hcs Hall Hrej | c1 c' c2 e Hcs Hall]; subst.
  - apply Forall_app in Hall as [_ Hall]. inversion Hall. congruence.
  - destruct (commands_of_events k d c1) as [H1 [H2 _]].
    unfold validates_of, runs_of in *. rewrite !pick_app, H1, H2. simpl.
    rewrite app_nil_r.
    symmetry in Hcs.
    assert (Prefix c1 pre) as [x ->]
      by (eapply Prefix_before_rejected; eassumption).
    repeat split; [discriminate | | now exists x].
    rewrite <- app_assoc in Hcs. apply app_inv_head in Hcs.
    destruct x as [|x0 x]; simpl in Hcs; injection Hcs as -> _.
    + rewrite app_nil_r. apply Prefix_refl.
    + exists (x ++ [c])%list. now rewrite <- !app_assoc.
  - destruct (commands_of_events k d c1) as [H1 [H2 _]].
    unfold validates_of, runs_of in *. rewrite !pick_app, H1, H2. simpl.
    rewrite app_nil_r.
    assert (Prefix (c1 ++ [c']) pre) as [x Hx].
    { apply Prefix_before_rejected with (l2 := c2) (y := c) (q := post); trivial.
      rewrite <- app_assoc. now symmetry. }
    repeat split; [discriminate | |].
    + exists (x ++ [c])%list. now rewrite Hx, <- !app_assoc.
    + exists ([c'] ++ x)%list. now rewrite Hx, <- !app_assoc.
Qed.

Lemma full_trace_app (self : ProjectArchitect) (a b : list string) :
  full_trace self (a ++ b) =
  (full_trace self a ++ flat_map (command_events CmdTask (project_dir_of self)) b)%list.
Proof.
  unfold full_trace. rewrite flat_map_app. simpl.
  repeat (rewrite <- app_assoc; simpl). reflexivity.
Qed.

End AbortFacts.

Section AbortClaims.

(** C4, as amended.  When the command list holds a rejected command [c],
    after [pre] and before [post]: the run never completes; in the command
    stage nothing beyond [pre] and [c] is validated and nothing beyond [pre]
    is spawned; when the command stage is entered every file of the plan has
    been written and the stage makes no file-system call.  When moreover no
    file-system call and no launch raises, every install command is accepted
    and [pre] is accepted, the run goes through stages 1 and 2 and through
    [pre], validates [c], logs the verdict and raises it. *)
Theorem rejected_command_aborts
        (w : World) (self : ProjectArchitect)
        (pre : list string) (c : string) (post : list string) :
  commands (execution_plan self) = (pre ++ c :: post)%list ->
  accepted c = false ->
  fst (execute w self) <> inr tt /\
  Prefix (validates_of (from_stage CmdTask (run_trace w self))) (pre ++ [c]) /\
  Prefix (runs_of (from_stage CmdTask (run_trace w self))) pre /\
  (entered CmdTask (run_trace w self) = true ->
   writes_of (run_trace w self) =
     map (target (project_dir_of self)) (files (execution_plan self)) /\
   forallb (fun e => negb (touches_files e))
           (from_stage CmdTask (run_trace w self)) = true) /\
  (calm w ->
   Forall (fun c => accepted c = true)
          (map install_command (dependencies (execution_plan self))) ->
   Forall (fun c => accepted c = true) pre ->
   execute w self =
   (inl (Exc (snd (SecurityManager.validate_command c))),
    (full_trace self pre ++
     [EvValidate c; EvLogError (snd (SecurityManager.validate_command c))])%list)).
Proof.
  intros Hcs Hc. unfold run_trace.
  pose proof (execute_shape w self) as R. apply PlanRun_stage3 in R.
  destruct R as (_ & _ & Hent & Hnofs & Hcase).
  assert (fst (execute w self) <> inr tt /\
          Prefix (validates_of (from_stage CmdTask (snd (execute w self)))) (pre ++ [c]) /\
          Prefix (runs_of (from_stage CmdTask (snd (execute w self)))) pre)
    as (A1 & A2 & A3).
  { destruct Hcase as [[_ [-> Hr]] | [_ Hrun]].
    - repeat split; trivial; apply Prefix_nil.
    - rewrite Hcs in Hrun. now apply CommandsRun_rejected in Hrun. }
  repeat split; trivial.
  - now apply Hent.
  - intros Hcalm Hdeps Hpre.
    rewrite calm_execute by trivial. rewrite Hcs, for_each_app.
    rewrite calm_setup by trivial. rewrite for_each_cons.
    rewrite rejected_setup_command by trivial.
    now rewrite <- full_trace_app, app_nil_l.
Qed.

Lemma rejected_command_aborts_witness :
  execute (quiet 0) Examples.demo_plan =
  (inl (Exc "Dangerous command detected: sudo reboot"),
   (full_trace Examples.demo_plan ["echo hi"] ++
    [EvValidate "sudo reboot";
     EvLogError "Dangerous command detected: sudo reboot"])%list).
Proof.
  destruct (@rejected_command_aborts (quiet 0) Examples.demo_plan
              ["echo hi"] "sudo reboot" ["ls"] eq_refl eq_refl)
    as (_ & _ & _ & _ & H).
  apply H.
  - now repeat split.
  - now repeat constructor.
  - now repeat constructor.
Defined.

(** C4, as stated, fails.  In [early_abort_plan] the command [sudo reboot]
    is rejected, but the run aborts in stage 2, at the dependency
    [dd-trace], with the reason naming the install command: the command is
    never submitted to the validator.  And on a full disk the run of
    [demo_plan], whose commands hold the rejected [sudo reboot], aborts in
    stage 1 with no file written. *)
Lemma rejected_command_not_reached :
  (In "sudo reboot" (commands (execution_plan Examples.early_abort_plan)) /\
   accepted "sudo reboot" = false /\
   fst (execute (quiet 0) Examples.early_abort_plan) =
     inl (Exc "Dangerous command detected: npm install dd-trace") /\
   validates_of (run_trace (quiet 0) Examples.early_abort_plan) =
     ["npm install dd-trace"]) /\
  (In "sudo reboot" (commands (execution_plan Examples.demo_plan)) /\
   fst (execute full_disk Examples.demo_plan) =
     inl (Exc "No space left on device") /\
   writes_of (run_trace full_disk Examples.demo_plan) = [] /\
   files (execution_plan Examples.demo_plan) <> []).
Proof. vm_compute. intuition discriminate. Qed.

End AbortClaims.

Section ReturnCodes.

Local Open Scope exec_scope.

Lemma Insensitive_ret {A : Type} (a : A) : Insensitive (ret a).
Proof. now intros rc w t. Qed.

Lemma Insensitive_raise {A : Type} (e : PyExc) : Insensitive (@raise A e).
Proof. now intros rc w t. Qed.

Lemma Insensitive_emit (e : Event) : Insensitive (emit e).
Proof. now intros rc w t. Qed.

Lemma Insensitive_mkdir (p : Path) (parents exist_ok : bool) :
  Insensitive (mkdir p parents exist_ok).
Proof. now intros rc w t. Qed.

Lemma Insensitive_write_text (p : Path) (data : string) :
  Insensitive (write_text p data).
Proof. now intros rc w t. Qed.

Lemma Insensitive_bind {A B : Type} (m : M A) (k : A -> M B) :
  Insensitive m -> (forall a, Insensitive (k a)) -> Insensitive (bind m k).
Proof.
  intros Hm Hk rc w t. unfold bind. rewrite Hm.
  destruct (m w t) as [[e | a] t']; [reflexivity | apply Hk].
Qed.

Lemma Insensitive_try_except {A : Type} (m : M A) (h : PyExc -> M A) :
  Insensitive m -> (forall e, Insensitive (h e)) -> Insensitive (try_except m h).
Proof.
  intros Hm Hh rc w t. unfold try_except. rewrite Hm.
  destruct (m w t) as [[e | a] t']; [apply Hh | reflexivity].
Qed.

(** The one place where a return code enters: the value of
    [subprocess.run], which the continuation does not read. *)
Lemma Insensitive_run_discarded {B : Type} (c : string) (d : Path) (k : M B) :
  Insensitive k -> Insensitive (bind (subprocess_run c d) (fun _ => k)).
Proof.
  intros Hk rc w t. unfold bind, subprocess_run. simpl.
  destruct (run_raises w t c d); [reflexivity | apply Hk].
Qed.

Lemma Insensitive_for_each {A : Type} (body : A -> M unit) (l : list A) :
  (forall x, Insensitive (body x)) -> Insensitive (for_each body l).
Proof.
  intros Hb. induction l as [|x l IH]; simpl.
  - apply Insensitive_ret.
  - apply Insensitive_bind; [apply Hb | intros _; exact IH].
Qed.

Lemma Insensitive_create_file (d : Path) (f : FileArtifact) :
  Insensitive (create_file d f).
Proof. now intros rc w t. Qed.

Lemma Insensitive_checked (k : Task) (d : Path) (c c' : string) :
  Insensitive
    (r <- validate_command c ;;
     let '(valid, msg) := r in
     if negb valid then logger_error msg ;; raise (Exc msg)
     else result <- subprocess_run c' d ;; advance k).
Proof.
  apply Insensitive_bind.
  - now intros rc w t.
  - intros [valid msg]. destruct valid; simpl.
    + apply Insensitive_run_discarded. apply Insensitive_emit.
    + now intros rc w t.
Qed.

Lemma Insensitive_execute_plan (self : ProjectArchitect) :
  Insensitive (_execute_plan self).
Proof.
  unfold _execute_plan.
  repeat first [ apply Insensitive_bind; [| intros _]
               | apply Insensitive_for_each; intros ?
               | apply Insensitive_create_file
               | apply Insensitive_checked
               | apply Insensitive_emit ].
  now intros rc w t.
Qed.

(** C8.  The return codes of the spawned processes have no influence on a
    run: replacing them by any others leaves the outcome and the trace as
    they were.  So when no file-system call and no launch raises and every
    install command and setup command is accepted, the run completes, with
    every file written and every process spawned, whatever the processes
    return. *)
Theorem return_codes_ignored
        (w : World) (rc : Trace -> string -> Path -> Z) (self : ProjectArchitect) :
  execute (with_returncode rc w) self = execute w self /\
  (calm w ->
   Forall (fun c => accepted c = true)
          (map install_command (dependencies (execution_plan self)) ++
           commands (execution_plan self)) ->
   execute (with_returncode rc w) self =
   (inr tt, full_trace self (commands (execution_plan self)))).
Proof.
  assert (execute (with_returncode rc w) self = execute w self) as E
    by apply Insensitive_execute_plan.
  split; [exact E |].
  intros Hcalm Hall. apply Forall_app in Hall as [Hdeps Hcmds].
  rewrite E, calm_execute by trivial. rewrite calm_setup by trivial.
  now rewrite <- full_trace_app.
Qed.

End ReturnCodes.

(** * Further properties *)

(** ** The validator, further *)

Section ValidatorMore.

Import SecurityManager.

Lemma lower_app (a b : string) : lower (a ++ b) = lower a ++ lower b.
Proof. induction a as [|c a IH]; simpl; [reflexivity | now rewrite IH]. Qed.

Lemma occurs_lower (c c' : string) : Occurs c c' -> Occurs (lower c) (lower c').
Proof.
  intros [a [b ->]]. exists (lower a), (lower b). now rewrite !lower_app.
Qed.

(** X1.  A command that contains a rejected command is rejected: no text
    put before or after a rejected command gets it accepted. *)
Theorem rejection_spreads (c c' : string) :
  Occurs c c' ->
  fst (validate_command c) = false ->
  fst (validate_command c') = false.
Proof.
  unfold validate_command. intros Hocc H.
  apply validate_loop_rejects in H as [p [Hp Ho]].
  apply validate_loop_rejects. exists p. split; [exact Hp |].
  exact (occurs_trans Ho (occurs_lower Hocc)).
Qed.

Lemma rejection_spreads_witness :
  fst (validate_command "echo start && sudo reboot; echo end") = false.
Proof.
  apply (@rejection_spreads "sudo reboot" "echo start && sudo reboot; echo end").
  - exists "echo start && ", "; echo end". reflexivity.
  - reflexivity.
Defined.

Lemma validate_loop_snoc_absent (ps : list string) (q c : string) :
  contains q (lower c) = false ->
  validate_loop (ps ++ [q]) c = validate_loop ps c.
Proof.
  intros H. induction ps as [|p ps IH]; simpl.
  - now rewrite H.
  - now rewrite IH.
Qed.

Lemma validate_loop_snoc_covered (ps : list string) (q c : string) :
  (exists p, In p ps /\ Occurs p q) ->
  validate_loop (ps ++ [q]) c = validate_loop ps c.
Proof.
  intros [p [Hp Hpq]].
  destruct (contains q (lower c)) eqn:E;
    [| now apply validate_loop_snoc_absent].
  apply contains_iff in E.
  assert (fst (validate_loop ps c) = false) as H1.
  { apply validate_loop_rejects. exists p. split; [exact Hp |].
    exact (occurs_trans Hpq E). }
  assert (fst (validate_loop (ps ++ [q]) c) = false) as H2.
  { apply validate_loop_rejects. exists p. split; [| exact (occurs_trans Hpq E)].
    apply in_or_app. now left. }
  destruct (validate_loop_verdict ps c) as [-> | E1];
    [| rewrite E1 in H1; discriminate].
  destruct (validate_loop_verdict (ps ++ [q]) c) as [-> | E2];
    [reflexivity | rewrite E2 in H2; discriminate].
Qed.

(** X2.  The last deny-list pattern, ["> /dev/sd"], never decides a
    verdict: it contains the earlier pattern ["> /dev"], so the validator
    answers as it would with the nine patterns before it. *)
Theorem last_pattern_is_redundant (c : string) :
  validate_command c =
  validate_loop [ "rm -rf"; "sudo"; "chmod"; "chown"; "> /dev"; "dd"; "mkfs";
                  "passwd"; "mv /*" ] c.
Proof.
  unfold validate_command.
  change DANGEROUS_PATTERNS
    with ([ "rm -rf"; "sudo"; "chmod"; "chown"; "> /dev"; "dd"; "mkfs";
            "passwd"; "mv /*" ] ++ ["> /dev/sd"])%list.
  apply validate_loop_snoc_covered.
  exists "> /dev". split; [simpl; tauto |]. now exists "", "/sd".
Qed.

Lemma contains_after_install (p x : string) :
  In p DANGEROUS_PATTERNS ->
  contains p ("npm install " ++ x) = contains p x.
Proof.
  intros H. simpl in H.
  repeat (destruct H as [<- | H]); try contradiction;
    cbn [append]; now rewrite 12 contains_skip by reflexivity.
Qed.

Lemma validate_loop_after_install (ps : list string) (pkg : string) :
  incl ps DANGEROUS_PATTERNS ->
  fst (validate_loop ps ("npm install " ++ pkg)) = fst (validate_loop ps pkg).
Proof.
  induction ps as [|p ps IH]; intros Hincl; [reflexivity |].
  cbn [validate_loop]. rewrite lower_app.
  change (lower "npm install ") with "npm install ".
  rewrite contains_after_install by (apply Hincl; now left).
  destruct (contains p (lower pkg)); [reflexivity |].
  apply IH. intros q Hq. apply Hincl. now right.
Qed.

(** X3.  The install command of a dependency is accepted exactly when the
    dependency string itself is: the prefix ["npm install "] neither
    triggers a pattern nor completes one. *)
Theorem install_accepted_as_package (pkg : string) :
  accepted (install_command pkg) = accepted pkg.
Proof.
  unfold accepted, install_command, validate_command.
  apply validate_loop_after_install. apply incl_refl.
Qed.

End ValidatorMore.

(** ** The parser, further *)

Section StringMore.

Lemma mem_char_app (d : ascii) (a b : string) :
  mem_char d (a ++ b) = mem_char d a || mem_char d b.
Proof.
  induction a as [|c a IH]; simpl; [reflexivity |].
  now rewrite IH, orb_assoc.
Qed.

Lemma mem_char_occurs (d : ascii) (t s : string) :
  Occurs t s -> mem_char d s = false -> mem_char d t = false.
Proof.
  intros [a [b ->]] H. rewrite !mem_char_app in H.
  apply orb_false_iff in H as [_ H]. now apply orb_false_iff in H as [H _].
Qed.

Lemma drop_occurs (n : nat) (s : string) : Occurs (drop n s) s.
Proof.
  destruct (drop_suffix n s) as [a Ha]. exists a, "".
  now rewrite append_empty_r.
Qed.

Lemma split_on_free (d : ascii) (s : string) :
  Forall (fun l => mem_char d l = false) (split_on d s).
Proof.
  induction s as [|c s IH]; simpl; [now repeat constructor |].
  destruct (Ascii.eqb c d) eqn:E; [now constructor |].
  destruct (split_on d s) as [|l ls]; [now repeat constructor; simpl; rewrite E |].
  inversion_clear IH as [|? ? Hl Hls]. constructor; [| exact Hls].
  simpl. now rewrite E, Hl.
Qed.

Lemma split_on_nonempty (d : ascii) (s : string) : split_on d s <> [].
Proof.
  destruct s as [|c s]; simpl; [discriminate |].
  destruct (Ascii.eqb c d); [discriminate |].
  destruct (split_on d s); discriminate.
Qed.

(** Joining the pieces of a split gives the string back. *)
Lemma join_split (d : ascii) (s : string) : join_on d (split_on d s) = s.
Proof.
  induction s as [|c s IH]; [reflexivity |].
  rewrite split_on_unfold.
  pose proof (split_on_nonempty d s) as Hne.
  destruct (Ascii.eqb_spec c d) as [-> | Hcd].
  - destruct (split_on d s) as [|l ls]; [congruence |].
    change (join_on d ("" :: l :: ls)) with (String d (join_on d (l :: ls))).
    now rewrite IH.
  - destruct (split_on d s) as [|l ls]; [congruence |].
    destruct ls as [|l' ls]; simpl in *; now rewrite <- IH.
Qed.

Lemma in_join_occurs (d : ascii) (ls : list string) (l : string) :
  In l ls -> Occurs l (join_on d ls).
Proof.
  induction ls as [|x ls IH]; intros H; [destruct H |].
  destruct ls as [|y ls].
  - destruct H as [<- | []]. exists "", "". simpl. now rewrite append_empty_r.
  - change (join_on d (x :: y :: ls)) with (x ++ String d (join_on d (y :: ls))).
    destruct H as [<- | H].
    + now exists "", (String d (join_on d (y :: ls))).
    + destruct (IH H) as [a [b Hab]]. exists (x ++ String d a), b.
      rewrite Hab. now rewrite !append_assoc.
Qed.

Lemma split_on_occurs (d : ascii) (s l : string) :
  In l (split_on d s) -> Occurs l s.
Proof.
  intros H. rewrite <- (join_split d s). now apply in_join_occurs.
Qed.

Lemma split_on_app_sep (d : ascii) (a b : string) :
  split_on d (a ++ String d b) = (split_on d a ++ split_on d b)%list.
Proof.
  induction a as [|c a IH].
  - simpl. now rewrite Ascii.eqb_refl.
  - simpl append. rewrite !(split_on_unfold d (String c _)).
    destruct (Ascii.eqb c d); rewrite IH; [reflexivity |].
    pose proof (split_on_nonempty d a) as Hne.
    destruct (split_on d a); [congruence | reflexivity].
Qed.

Lemma rstrip_rstrip (s : string) : rstrip (rstrip s) = rstrip s.
Proof.
  induction s as [|c s IH]; [reflexivity |]. simpl.
  destruct (rstrip s) as [|x t] eqn:E.
  - destruct (is_space c) eqn:Ec; [reflexivity |]. simpl. now rewrite Ec.
  - simpl in IH. simpl. now rewrite IH.
Qed.

Lemma lstrip_head (s : string) :
  lstrip s = "" \/ exists c r, lstrip s = String c r /\ is_space c = false.
Proof.
  induction s as [|c s IH]; simpl; [now left |].
  destruct (is_space c) eqn:E; [exact IH |]. right. now exists c, s.
Qed.

(** Stripping twice is stripping once. *)
Lemma strip_strip (s : string) : strip (strip s) = strip s.
Proof.
  unfold strip. destruct (lstrip_head s) as [-> | [c [r [-> Hc]]]]; [reflexivity |].
  rewrite rstrip_cons by exact Hc. simpl lstrip. rewrite Hc.
  rewrite rstrip_cons by exact Hc. now rewrite rstrip_rstrip.
Qed.

Lemma startswith_app (s t p : string) :
  startswith s p = true -> startswith (s ++ t) p = true.
Proof.
  intros H. apply startswith_iff in H as [b ->]. apply startswith_iff.
  exists (b ++ t). now rewrite append_assoc.
Qed.

(** The text [split(sep, 1)] puts before the cut holds no occurrence of a
    non-empty [sep]. *)
Lemma split1_first_free (sep s a b : string) :
  sep <> "" -> split1 sep s = [a; b] -> contains sep a = false.
Proof.
  intros Hsep. revert a. induction s as [|c s IH]; intros a; rewrite split1_unfold.
  - destruct (startswith "" sep) eqn:E; [| discriminate].
    destruct sep; [congruence | discriminate].
  - destruct (startswith (String c s) sep) eqn:E.
    + intros H. injection H as <- _. destruct sep; [congruence | reflexivity].
    + destruct (split1 sep s) as [|a' [|b' [|? ?]]] eqn:Es; try discriminate.
      intros H. injection H as <- <-.
      rewrite contains_unfold, (IH a' eq_refl), orb_false_r.
      destruct (startswith (String c a') sep) eqn:E'; [| reflexivity].
      assert (contains sep s = true) as Hs.
      { destruct (contains sep s) eqn:Hc; [reflexivity |].
        rewrite (split1_absent _ _ Hc) in Es. discriminate. }
      destruct (split1_present _ _ Hs) as [a2 [b2 [Hs2 Hab]]].
      rewrite Es in Hs2. injection Hs2 as <- <-.
      rewrite Hab in E. change (String c (a' ++ sep ++ b'))
        with (String c a' ++ (sep ++ b')) in E.
      rewrite startswith_app in E by exact E'. discriminate.
Qed.

End StringMore.

Section ParserMore.

Import Parser MoreNotions.

Lemma marker_needs_text (m response l : string) :
  contains m response = false ->
  In l (split_on LF response) ->
  startswith (strip l) m = false.
Proof.
  intros H Hin. destruct (startswith (strip l) m) eqn:E; [| reflexivity].
  apply contains_false_iff in H. exfalso. apply H.
  apply startswith_iff in E as [b Hb].
  assert (Occurs m (strip l)) as Hm by (exists "", b; exact Hb).
  exact (occurs_trans (occurs_trans Hm (strip_occurs l)) (split_on_occurs _ _ _ Hin)).
Qed.

Lemma parse_line_outside (st : ParseState) (raw : string) :
  current_section st = None ->
  startswith (strip raw) "// FILES" = false ->
  startswith (strip raw) "// COMMANDS" = false ->
  startswith (strip raw) "// DEPS" = false ->
  parse_line st raw = st.
Proof.
  intros Hsec H1 H2 H3. unfold parse_line. now rewrite H1, H2, H3, Hsec.
Qed.

(** X4.  A response in which none of the three section markers occurs
    parses to the empty plan, with nothing logged, whatever tagged lines it
    holds; executing that plan where nothing fails creates the project
    directory and the three empty progress tasks, and nothing else. *)
Theorem plan_without_markers_is_empty
        (self : ProjectArchitect) (response : string) (w : World) :
  contains "// FILES" response = false ->
  contains "// COMMANDS" response = false ->
  contains "// DEPS" response = false ->
  _parse_plan self response =
    (mkArchitect (project_config self) (mkPlan [] [] []), []) /\
  (calm w ->
   execute w (fst (_parse_plan self response)) =
   (inr tt,
    [ EvMkdir (project_dir_of self) false true;
      EvAddTask FileTask 0; EvAddTask DepTask 0; EvAddTask CmdTask 0 ])).
Proof.
  intros H1 H2 H3.
  assert (parse response = initial) as E.
  { unfold parse.
    assert (forall ls, (forall l, In l ls -> In l (split_on LF response)) ->
                       parse_lines initial ls = initial) as G.
    { induction ls as [|l ls IH]; intros Hin; [reflexivity |].
      unfold parse_lines. simpl.
      rewrite parse_line_outside; trivial.
      - apply IH. intros x Hx. apply Hin. now right.
      - apply marker_needs_text with (response := response); trivial.
        apply Hin. now left.
      - apply marker_needs_text with (response := response); trivial.
        apply Hin. now left.
      - apply marker_needs_text with (response := response); trivial.
        apply Hin. now left. }
    apply G. trivial. }
  assert (_parse_plan self response =
          (mkArchitect (project_config self) (mkPlan [] [] []), [])) as E'.
  { unfold _parse_plan. now rewrite E. }
  split; [exact E' |].
  intros Hcalm. rewrite E'. simpl fst.
  rewrite calm_execute; trivial.
Qed.

Lemma plan_without_markers_is_empty_witness :
  _parse_plan Examples.demo_plan
              (text_of ["Here is the plan:"; "FILE: a.txt => x"; "SHELL: ls"]) =
  (mkArchitect (project_config Examples.demo_plan) (mkPlan [] [] []), []).
Proof.
  apply (@plan_without_markers_is_empty Examples.demo_plan
           (text_of ["Here is the plan:"; "FILE: a.txt => x"; "SHELL: ls"])
           (quiet 0)); reflexivity.
Defined.

(** A step of the loop only adds at the end of the lists of the plan and
    of the log. *)
Lemma parse_line_extends (st : ParseState) (raw : string) :
  Prefix (files (plan st)) (files (plan (parse_line st raw))) /\
  Prefix (commands (plan st)) (commands (plan (parse_line st raw))) /\
  Prefix (dependencies (plan st)) (dependencies (plan (parse_line st raw))) /\
  Prefix (log st) (log (parse_line st raw)).
Proof.
  unfold parse_line.
  repeat match goal with
         | |- context [if ?b then _ else _] => destruct b; simpl
         | |- context [match ?x with inl _ => _ | inr _ => _ end] => destruct x; simpl
         end;
    repeat split; first [apply Prefix_refl | eexists; reflexivity].
Qed.

Lemma parse_lines_extends (ls : list string) (st : ParseState) :
  Prefix (files (plan st)) (files (plan (parse_lines st ls))) /\
  Prefix (commands (plan st)) (commands (plan (parse_lines st ls))) /\
  Prefix (dependencies (plan st)) (dependencies (plan (parse_lines st ls))) /\
  Prefix (log st) (log (parse_lines st ls)).
Proof.
  revert st; induction ls as [|l ls IH]; intros st.
  - simpl. repeat split; apply Prefix_refl.
  - destruct (parse_line_extends st l) as (A1 & A2 & A3 & A4).
    destruct (IH (parse_line st l)) as (B1 & B2 & B3 & B4).
    unfold parse_lines in *. simpl.
    repeat split; eapply Prefix_trans; eassumption.
Qed.

(** X5.  Parsing goes line by line: the parse of a text followed by a line
    feed and more text is the parse of the first text carried on over the
    lines of the rest.  So text added after a line feed never removes,
    changes or reorders what was parsed before: the files, commands,
    dependencies and log records of the first text stay, in front. *)
Theorem parsing_is_incremental (a b : string) :
  parse (a ++ String LF b) = parse_lines (parse a) (split_on LF b) /\
  Prefix (files (plan (parse a))) (files (plan (parse (a ++ String LF b)))) /\
  Prefix (commands (plan (parse a))) (commands (plan (parse (a ++ String LF b)))) /\
  Prefix (dependencies (plan (parse a)))
         (dependencies (plan (parse (a ++ String LF b)))) /\
  Prefix (log (parse a)) (log (parse (a ++ String LF b))).
Proof.
  assert (parse (a ++ String LF b) = parse_lines (parse a) (split_on LF b)) as E.
  { unfold parse, parse_lines. now rewrite split_on_app_sep, fold_left_app. }
  split; [exact E |]. rewrite E. apply parse_lines_extends.
Qed.

(** An invariant of the loop: a property that every entry a line can add
    has is a property of every entry of the plan. *)
Lemma parse_lines_fields (Q : string -> Prop) (Pf : FileArtifact -> Prop)
      (Ps : string -> Prop) :
  (forall raw f, Q raw -> parse_file_entry (strip raw) = inr f -> Pf f) ->
  (forall raw n, Q raw -> Ps (strip (drop n (strip raw)))) ->
  forall ls st,
    Forall Q ls -> EveryField Pf Ps (plan st) ->
    EveryField Pf Ps (plan (parse_lines st ls)).
Proof.
  intros Hf Hs. induction ls as [|l ls IH]; intros st Hq Hst; [exact Hst |].
  inversion_clear Hq as [|? ? Hl Hls].
  unfold parse_lines in *. simpl. apply IH; [exact Hls |].
  destruct Hst as (F1 & F2 & F3). unfold parse_line.
  repeat match goal with
         | |- context [if ?b then _ else _] => destruct b
         end;
    unfold EveryField, set_section, append_file, append_command,
      append_dependency, Parser.logger_error;
    try (cbn [plan files commands dependencies]; repeat split; assumption).
  - destruct (parse_file_entry (strip l)) as [e | f] eqn:E;
      cbn [plan files commands dependencies]; repeat split; trivial.
    apply Forall_app. split; [exact F1 |]. constructor; [| constructor].
    now apply (Hf l).
  - cbn [plan files commands dependencies]. repeat split; trivial.
    apply Forall_app. split; [exact F2 |].
    constructor; [| constructor]. now apply Hs.
  - cbn [plan files commands dependencies]. repeat split; trivial.
    apply Forall_app. split; [exact F3 |].
    constructor; [| constructor]. now apply Hs.
Qed.

Lemma parse_file_entry_parts (line : string) (f : FileArtifact) :
  parse_file_entry line = inr f ->
  exists a b, split1 " => " (drop 6 line) = [a; b] /\
              drop 6 line = a ++ " => " ++ b /\
              f = mkFile (strip a) (strip b).
Proof.
  unfold parse_file_entry. intros H.
  destruct (contains " => " (drop 6 line)) eqn:E.
  - destruct (split1_present _ _ E) as [a [b [Hs Hab]]].
    rewrite Hs in H. simpl in H. injection H as <-. now exists a, b.
  - rewrite (split1_absent _ _ E) in H. discriminate.
Qed.

(** X6.  No field of a parsed plan holds a line feed: a path, a content, a
    command or a dependency is cut from one line of the response, so the
    content of a file is never more than one line of text. *)
Theorem parsed_fields_are_single_lines (response : string) :
  EveryField (fun f => one_line (path f) = true /\ one_line (content f) = true)
             (fun s => one_line s = true)
             (plan (parse response)).
Proof.
  assert (forall t s, Occurs t s -> mem_char LF s = false -> one_line t = true) as G.
  { intros t s Ho Hs. unfold one_line.
    rewrite mem_char_occurs with (s := s); trivial. }
  unfold parse.
  apply parse_lines_fields with (Q := fun l => mem_char LF l = false).
  - intros raw f Hraw Hf.
    destruct (parse_file_entry_parts _ Hf) as [a [b [_ [Hab ->]]]].
    cbn [path content].
    assert (Occurs (drop 6 (strip raw)) raw) as Hd
        by exact (occurs_trans (drop_occurs 6 (strip raw)) (strip_occurs raw)).
    split.
    + apply G with (s := raw); trivial.
      apply occurs_trans with (s := a); [apply strip_occurs |].
      apply occurs_trans with (s := drop 6 (strip raw)); trivial.
      exists "", (" => " ++ b). exact Hab.
    + apply G with (s := raw); trivial.
      apply occurs_trans with (s := b); [apply strip_occurs |].
      apply occurs_trans with (s := drop 6 (strip raw)); trivial.
      exists (a ++ " => "), "". now rewrite append_empty_r, append_assoc.
  - intros raw n Hraw. apply G with (s := raw); trivial.
    apply occurs_trans with (s := drop n (strip raw)); [apply strip_occurs |].
    exact (occurs_trans (drop_occurs n (strip raw)) (strip_occurs raw)).
  - apply split_on_free.
  - repeat split; constructor.
Qed.

(** X7.  Every field of a parsed plan is stripped, without whitespace at
    either end, and the path of a file holds no [" => "]: a [FILE:] line is
    cut at its first separator, so further separators go to the content. *)
Theorem parsed_fields_are_stripped (response : string) :
  EveryField (fun f => stripped (path f) /\ stripped (content f) /\
                       contains " => " (path f) = false)
             stripped
             (plan (parse response)).
Proof.
  unfold parse.
  apply parse_lines_fields with (Q := fun _ => True).
  - intros raw f _ Hf.
    destruct (parse_file_entry_parts _ Hf) as [a [b [Hs [_ ->]]]].
    cbn [path content].
    repeat split; try apply strip_strip.
    apply strip_no_new_occurrence.
    apply split1_first_free with (s := drop 6 (strip raw)) (b := b);
      [discriminate | exact Hs].
  - intros raw n _. apply strip_strip.
  - apply Forall_forall. trivial.
  - repeat split; constructor.
Qed.

End ParserMore.

(** ** The executor, further *)

Section DiskFacts.

Import MoreNotions.

Lemma names_eqb_eq (a b : list string) : names_eqb a b = true <-> a = b.
Proof.
  revert b; induction a as [|x a IH]; intros [|y b]; simpl;
    try (split; [discriminate | discriminate]); [tauto |].
  rewrite andb_true_iff, String.eqb_eq, IH. split.
  - now intros [-> ->].
  - intros H. injection H as -> ->. now split.
Qed.

Lemma content_at_none (cwd : list string) (ws : list (Path * string))
      (loc : list string) :
  (forall p d, In (p, d) ws -> locate cwd p <> loc) ->
  content_at cwd ws loc = None.
Proof.
  induction ws as [|[p d] ws IH]; intros H; [reflexivity |]. simpl.
  rewrite IH by (intros q e Hq; apply (H q e); now right).
  destruct (names_eqb (locate cwd p) loc) eqn:E; [| reflexivity].
  apply names_eqb_eq in E. now destruct (H p d (or_introl eq_refl)).
Qed.

(** The last write at a place is what stays there. *)
Lemma content_at_last (cwd : list string) (w1 : list (Path * string))
      (p : Path) (d : string) (w2 : list (Path * string)) :
  (forall q e, In (q, e) w2 -> locate cwd q <> locate cwd p) ->
  content_at cwd (w1 ++ (p, d) :: w2) (locate cwd p) = Some d.
Proof.
  intros H. induction w1 as [|[q e] w1 IH]; simpl.
  - rewrite content_at_none by exact H.
    assert (names_eqb (locate cwd p) (locate cwd p) = true) as ->
        by now apply names_eqb_eq.
    reflexivity.
  - now rewrite IH.
Qed.

Lemma writes_when_stage2_entered (self : ProjectArchitect) (r : PyExc + unit)
      (tr : Trace) :
  PlanRun self r tr ->
  entered DepTask tr = true ->
  writes_of tr = map (target (project_dir_of self)) (files (execution_plan self)).
Proof.
  intros H. destruct H as [e | e tf Hf | e tf td Hf Hd | r tf td tc Hf Hd Hc];
    stage_facts; trace_norm; trivial; discriminate.
Qed.

(** X8.  When two files of a plan go to the same place, the later one
    wins: once stage 1 is over, the writes of the executor leave at the
    place of a file the content of the last file of the plan that goes
    there. *)
Theorem last_write_wins
        (w : World) (self : ProjectArchitect) (cwd : list string)
        (l1 : list FileArtifact) (f : FileArtifact) (l2 : list FileArtifact) :
  files (execution_plan self) = (l1 ++ f :: l2)%list ->
  (forall g, In g l2 ->
             locate cwd (joinpath (project_dir_of self) (path g)) <>
             locate cwd (joinpath (project_dir_of self) (path f))) ->
  entered DepTask (run_trace w self) = true ->
  content_at cwd (writes_of (run_trace w self))
             (locate cwd (joinpath (project_dir_of self) (path f))) =
  Some (content f).
Proof.
  intros Hfiles Hlast Hent. unfold run_trace in *.
  pose proof (execute_shape w self) as R.
  rewrite (writes_when_stage2_entered R Hent), Hfiles, map_app. simpl map.
  unfold target at 2.
  apply content_at_last.
  intros q e Hq. apply in_map_iff in Hq as [g [Hg Hin]].
  injection Hg as <- <-. now apply Hlast.
Qed.

Lemma last_write_wins_witness :
  content_at ["home"]
             (writes_of (run_trace (quiet 0) twice_plan))
             (locate ["home"] (joinpath (project_dir_of twice_plan) "./a.txt")) =
  Some "new".
Proof.
  apply (@last_write_wins (quiet 0) twice_plan ["home"]
           [mkFile "a.txt" "old"] (mkFile "./a.txt" "new") []).
  - reflexivity.
  - intros g [].
  - reflexivity.
Defined.

End DiskFacts.

(** ** The path sanitizer *)

Section SanitizerFacts.

Import Sanitizer MoreNotions.

Lemma proper_spec (c : string) :
  proper c = true ->
  String.eqb c "" = false /\ String.eqb c "." = false /\
  String.eqb c ".." = false /\ mem_char SLASH c = false.
Proof.
  unfold proper. intros H.
  repeat (apply andb_true_iff in H as [H ?]).
  repeat split; now apply negb_true_iff.
Qed.

Lemma step_proper (init : nat) (acc : list string) (c : string) :
  proper c = true -> normpath_step init acc c = (acc ++ [c])%list.
Proof.
  intros H. destruct (proper_spec _ H) as (H1 & H2 & H3 & _).
  unfold normpath_step. now rewrite H1, H2, H3.
Qed.

Lemma last_snoc (l : list string) (x d : string) : last (l ++ [x]) d = x.
Proof.
  induction l as [|y l IH]; [reflexivity |].
  simpl app. destruct (l ++ [x])%list eqn:E; [now destruct l | exact IH].
Qed.

Lemma dotdots_last (acc : list string) :
  forallb is_dotdot acc = true -> acc <> [] -> String.eqb (last acc "") ".." = true.
Proof.
  induction acc as [|x acc IH]; intros H Hne; [congruence |].
  simpl in H. apply andb_true_iff in H as [Hx Hacc].
  destruct acc as [|y acc]; [exact Hx |].
  change (last (x :: y :: acc) "") with (last (y :: acc) "").
  apply IH; [exact Hacc | discriminate].
Qed.

Lemma step_dotdot_relative (acc : list string) :
  forallb is_dotdot acc = true ->
  normpath_step 0 acc ".." = (acc ++ [".."])%list.
Proof.
  intros H. unfold normpath_step. simpl.
  destruct acc as [|x acc]; [reflexivity |].
  simpl is_empty. rewrite dotdots_last; [reflexivity | exact H | discriminate].
Qed.

(** Components that are already normal are kept as they are. *)
Lemma fold_proper (init : nat) (cs acc : list string) :
  forallb proper cs = true ->
  fold_left (normpath_step init) cs acc = (acc ++ cs)%list.
Proof.
  revert acc; induction cs as [|c cs IH]; intros acc H; simpl.
  - now rewrite app_nil_r.
  - simpl in H. apply andb_true_iff in H as [Hc Hcs].
    rewrite step_proper by exact Hc. rewrite IH by exact Hcs.
    now rewrite <- app_assoc.
Qed.

Lemma fold_normal_relative (cs acc : list string) :
  normal_relative cs = true ->
  forallb is_dotdot acc = true ->
  fold_left (normpath_step 0) cs acc = (acc ++ cs)%list.
Proof.
  revert acc; induction cs as [|c cs IH]; intros acc H Hacc.
  - simpl. now rewrite app_nil_r.
  - simpl in H. destruct (is_dotdot c) eqn:Ec.
    + apply String.eqb_eq in Ec. subst c. simpl fold_left.
      rewrite step_dotdot_relative by exact Hacc.
      rewrite IH; [now rewrite <- app_assoc | exact H |].
      rewrite forallb_app, Hacc. reflexivity.
    + now apply fold_proper.
Qed.

Lemma fold_normal (init : nat) (cs : list string) :
  normal_comps init cs = true ->
  fold_left (normpath_step init) cs [] = cs.
Proof.
  unfold normal_comps. destruct init as [|n]; simpl; intros H.
  - now apply fold_normal_relative.
  - now apply fold_proper.
Qed.


Lemma normal_relative_snoc (acc : list string) (c : string) :
  normal_relative acc = true -> proper c = true ->
  normal_relative (acc ++ [c]) = true.
Proof.
  intros H Hc. induction acc as [|x acc IH].
  - simpl. destruct (proper_spec _ Hc) as (_ & _ & Hdd & _).
    unfold is_dotdot. now rewrite Hdd, Hc.
  - simpl in *. destruct (is_dotdot x); [now apply IH |].
    apply andb_true_iff in H as [Hx Hacc].
    rewrite Hx, forallb_app, Hacc. simpl. now rewrite Hc.
Qed.

Lemma dotdots_normal (l : list string) :
  forallb is_dotdot l = true -> normal_relative l = true.
Proof.
  induction l as [|x l IH]; [reflexivity |]. simpl. intros H.
  apply andb_true_iff in H as [-> Hl]. now apply IH.
Qed.

Lemma proper_last (l : list string) :
  forallb proper l = true -> l <> [] -> proper (last l "") = true.
Proof.
  induction l as [|x l IH]; intros H Hne; [congruence |].
  simpl in H. apply andb_true_iff in H as [Hx Hl].
  destruct l as [|y l]; [exact Hx |].
  change (last (x :: y :: l) "") with (last (y :: l) "").
  apply IH; [exact Hl | discriminate].
Qed.

Lemma proper_not_dotdot (c : string) :
  proper c = true -> String.eqb c ".." = true -> False.
Proof.
  intros H E. destruct (proper_spec _ H) as (_ & _ & Hdd & _). congruence.
Qed.

Lemma normal_relative_dotdots (acc : list string) :
  normal_relative acc = true -> acc <> [] ->
  String.eqb (last acc "") ".." = true ->
  forallb is_dotdot acc = true.
Proof.
  induction acc as [|x acc IH]; intros H Hne Hlast; [congruence |].
  simpl in H. destruct (is_dotdot x) eqn:Ex.
  - simpl. rewrite Ex. destruct acc as [|y acc]; [reflexivity |].
    apply IH; [exact H | discriminate | exact Hlast].
  - exfalso. apply (@proper_not_dotdot (last (x :: acc) "")); [| exact Hlast].
    apply proper_last; [exact H | discriminate].
Qed.

Lemma forallb_removelast (P : string -> bool) (l : list string) :
  forallb P l = true -> forallb P (removelast l) = true.
Proof.
  induction l as [|x l IH]; [reflexivity |]. intros H.
  simpl in H. apply andb_true_iff in H as [Hx Hl].
  destruct l as [|y l]; [reflexivity |].
  change (forallb P (removelast (x :: y :: l)))
    with (P x && forallb P (removelast (y :: l))).
  now rewrite Hx, (IH Hl).
Qed.

Lemma normal_relative_removelast (acc : list string) :
  normal_relative acc = true -> normal_relative (removelast acc) = true.
Proof.
  induction acc as [|x acc IH]; [reflexivity |]. intros H.
  destruct acc as [|y acc]; [reflexivity |].
  change (normal_relative (removelast (x :: y :: acc)))
    with (if is_dotdot x then normal_relative (removelast (y :: acc))
          else forallb proper (removelast (x :: y :: acc))).
  change (normal_relative (x :: y :: acc))
    with (if is_dotdot x then normal_relative (y :: acc)
          else forallb proper (x :: y :: acc)) in H.
  destruct (is_dotdot x); [now apply IH | now apply forallb_removelast].
Qed.

(** The loop keeps its list normal. *)
Lemma step_normal (init : nat) (acc : list string) (c : string) :
  mem_char SLASH c = false ->
  normal_comps init acc = true ->
  normal_comps init (normpath_step init acc c) = true.
Proof.
  intros Hc H. unfold normpath_step.
  destruct (String.eqb c "") eqn:E1; [exact H |].
  destruct (String.eqb c ".") eqn:E2; [exact H |].
  destruct (String.eqb c "..") eqn:E3; simpl orb.
  - apply String.eqb_eq in E3. subst c.
    unfold normal_comps in *. destruct init as [|n]; simpl Nat.eqb in *; cbv iota in *.
    + destruct acc as [|x acc]; [reflexivity |].
      cbn [is_empty negb orb andb Nat.eqb].
      destruct (String.eqb (last (x :: acc) "") "..") eqn:El.
      * apply dotdots_normal. rewrite forallb_app.
        rewrite normal_relative_dotdots; trivial; discriminate.
      * now apply normal_relative_removelast.
    + destruct acc as [|x acc]; [reflexivity |].
      cbn [is_empty negb orb andb Nat.eqb].
      destruct (String.eqb (last (x :: acc) "") "..") eqn:El.
      * exfalso. apply (@proper_not_dotdot (last (x :: acc) "")); [| exact El].
        apply proper_last; [exact H | discriminate].
      * now apply forallb_removelast.
  - assert (proper c = true) as Hp.
    { unfold proper. now rewrite E1, E2, E3, Hc. }
    unfold normal_comps in *. destruct init as [|n]; simpl Nat.eqb in *; cbv iota in *.
    + now apply normal_relative_snoc.
    + rewrite forallb_app, H. simpl. now rewrite Hp.
Qed.

Lemma fold_keeps_normal (init : nat) (cs acc : list string) :
  Forall (fun c => mem_char SLASH c = false) cs ->
  normal_comps init acc = true ->
  normal_comps init (fold_left (normpath_step init) cs acc) = true.
Proof.
  intros Hcs. revert acc. induction Hcs as [|c cs Hc Hcs IH]; intros acc H.
  - exact H.
  - simpl. apply IH. now apply step_normal.
Qed.

Lemma normal_comps_plain (init : nat) (cs : list string) :
  normal_comps init cs = true ->
  Forall (fun c => mem_char SLASH c = false /\ c <> "") cs.
Proof.
  assert (forall l, forallb proper l = true ->
                    Forall (fun c => mem_char SLASH c = false /\ c <> "") l) as P.
  { induction l as [|x l IH]; intros H; [constructor |].
    simpl in H. apply andb_true_iff in H as [Hx Hl].
    constructor; [| now apply IH].
    destruct (proper_spec _ Hx) as (H1 & _ & _ & H4).
    split; [exact H4 |]. intros ->. discriminate. }
  unfold normal_comps. destruct (init =? 0)%nat; [| apply P].
  induction cs as [|x cs IH]; intros H; [constructor |].
  simpl in H. destruct (is_dotdot x) eqn:Ex; [| now apply P].
  apply String.eqb_eq in Ex. subst x.
  constructor; [split; [reflexivity | discriminate] | now apply IH].
Qed.

Lemma split_on_slashes (n : nat) (s : string) :
  split_on SLASH (slashes n ++ s) = (repeat "" n ++ split_on SLASH s)%list.
Proof.
  induction n as [|n IH]; [reflexivity |].
  simpl slashes. simpl append. rewrite split_on_unfold, Ascii.eqb_refl, IH.
  reflexivity.
Qed.

Lemma fold_skips_empty (init n : nat) (cs acc : list string) :
  fold_left (normpath_step init) (repeat "" n ++ cs) acc =
  fold_left (normpath_step init) cs acc.
Proof. induction n as [|n IH]; [reflexivity | exact IH]. Qed.

Lemma join_on_cons (d : ascii) (c : string) (rest : list string) :
  exists t, join_on d (c :: rest) = c ++ t.
Proof.
  destruct rest as [|x rest].
  - exists "". simpl. now rewrite append_empty_r.
  - now exists (String d (join_on d (x :: rest))).
Qed.

Lemma initial_slashes_rebuilt (init : nat) (a : ascii) (r : string) :
  init <= 2 -> Ascii.eqb SLASH a = false ->
  initial_slashes_of (slashes init ++ String a r) = init.
Proof.
  intros Hle Ha. unfold initial_slashes_of.
  change SLASH with "/"%char in *.
  destruct init as [|[|[|n]]]; [| | | lia];
    cbn [slashes append startswith]; change SLASH with "/"%char;
    rewrite ?Ascii.eqb_refl, ?Ha; reflexivity.
Qed.

(** A path made of normal components is left as it is. *)
Lemma normpath_fixed (init : nat) (cs : list string) :
  init <= 2 -> normal_comps init cs = true -> cs <> [] ->
  normpath (slashes init ++ join_on SLASH cs) = slashes init ++ join_on SLASH cs.
Proof.
  intros Hle Hn Hne.
  pose proof (normal_comps_plain _ _ Hn) as Hplain.
  destruct cs as [|c cs]; [congruence |].
  destruct (join_on_cons SLASH c cs) as [t Ht].
  inversion Hplain as [|? ? [Hc Hc0] Hrest]; subst.
  destruct c as [|a r]; [congruence |].
  simpl in Hc. apply orb_false_iff in Hc as [Ha _].
  rewrite Ascii.eqb_sym in Ha.
  assert (exists b y, slashes init ++ join_on SLASH (String a r :: cs) = String b y)
    as [b [y Hout]].
  { rewrite Ht. destruct init as [|n]; simpl; eauto. }
  unfold normpath.
  assert (String.eqb (slashes init ++ join_on SLASH (String a r :: cs)) "" = false) as E0
      by now rewrite Hout.
  rewrite E0.
  assert (initial_slashes_of (slashes init ++ join_on SLASH (String a r :: cs)) = init)
    as ->.
  { rewrite Ht. change (String a r ++ t) with (String a (r ++ t)).
    now apply initial_slashes_rebuilt. }
  rewrite split_on_slashes, fold_skips_empty.
  rewrite split_on_join; [| discriminate |].
  - rewrite fold_normal by exact Hn. now rewrite E0.
  - eapply Forall_impl; [| exact Hplain]. now intros x [Hx _].
Qed.

Lemma initial_slashes_bound (path : string) : initial_slashes_of path <= 2.
Proof.
  unfold initial_slashes_of.
  destruct (startswith path "/"); [| lia].
  destruct (startswith path "//" && negb (startswith path "///")); lia.
Qed.

(** X9.  Sanitizing is idempotent: a sanitized path is left as it is by a
    second pass; and the result is never the empty string. *)
Theorem sanitize_path_idempotent (path : string) :
  sanitize_path (sanitize_path path) = sanitize_path path /\
  sanitize_path path <> "".
Proof.
  unfold sanitize_path.
  assert (normpath path = "." \/ normpath path = "/" \/ normpath path = "//" \/
          exists init cs, init <= 2 /\ normal_comps init cs = true /\ cs <> [] /\
                          normpath path = slashes init ++ join_on SLASH cs) as H.
  { unfold normpath. destruct (String.eqb path ""); [now left |].
    pose proof (initial_slashes_bound path) as Hle.
    set (init := initial_slashes_of path) in *.
    assert (normal_comps init
              (fold_left (normpath_step init) (split_on SLASH path) []) = true) as Hn.
    { apply fold_keeps_normal; [apply split_on_free |].
      unfold normal_comps. now destruct (init =? 0)%nat. }
    destruct (fold_left (normpath_step init) (split_on SLASH path) [])
      as [|c cs] eqn:E.
    - destruct init as [|[|[|n]]]; simpl; [now left | tauto | tauto | lia].
    - right; right; right.
      destruct (String.eqb (slashes init ++ join_on SLASH (c :: cs)) "") eqn:E0.
      + exfalso. apply String.eqb_eq in E0.
        pose proof (normal_comps_plain _ _ Hn) as Hp.
        inversion Hp as [|? ? [_ Hc] _]; subst.
        destruct (join_on_cons SLASH c cs) as [t Ht]. rewrite Ht in E0.
        destruct init; destruct c; simpl in E0; congruence.
      + exists init, (c :: cs). repeat split; trivial. discriminate. }
  destruct H as [-> | [-> | [-> | [init [cs [Hle [Hn [Hne ->]]]]]]]];
    try (split; [reflexivity | discriminate]).
  split; [now apply normpath_fixed |].
  pose proof (normal_comps_plain _ _ Hn) as Hp.
  destruct cs as [|c cs]; [congruence |].
  inversion Hp as [|? ? [_ Hc] _]; subst.
  destruct (join_on_cons SLASH c cs) as [t ->].
  destruct init; destruct c; simpl; congruence.
Qed.

(** X10.  The sanitizer does not keep a path below a directory: a relative
    path made of [".."] segments followed by proper names is returned as it
    is, leading [".."] segments included, and an absolute path made of
    proper names is returned as it is. *)
Theorem sanitize_path_keeps_normal_paths (cs : list string) :
  cs <> [] ->
  (normal_relative cs = true ->
   sanitize_path (join_on SLASH cs) = join_on SLASH cs) /\
  (forallb proper cs = true ->
   sanitize_path ("/" ++ join_on SLASH cs) = "/" ++ join_on SLASH cs).
Proof.
  intros Hne. unfold sanitize_path. split; intros H.
  - apply (@normpath_fixed 0 cs); trivial. lia.
  - apply (@normpath_fixed 1 cs); trivial. lia.
Qed.

Lemma sanitize_path_keeps_normal_paths_witness :
  sanitize_path "../../etc/passwd" = "../../etc/passwd".
Proof.
  apply (@sanitize_path_keeps_normal_paths [".."; ".."; "etc"; "passwd"]).
  - discriminate.
  - reflexivity.
Defined.

End SanitizerFacts.

(** ** The analysis parser *)

Section AnalysisFacts.

Import Analysis MoreNotions.

Lemma startswith_empty (s : string) : startswith s "" = true.
Proof. now destruct s. Qed.

Lemma split1_at_colon (t b : string) :
  mem_char ":" t = false -> split1 ":" (t ++ String ":" b) = [t; b].
Proof.
  induction t as [|c t IH]; intros H.
  - rewrite split1_unfold. cbn [append startswith].
    now rewrite Ascii.eqb_refl, startswith_empty.
  - simpl in H. apply orb_false_iff in H as [Hc Ht].
    cbn [append]. rewrite split1_unfold. cbn [startswith].
    rewrite Ascii.eqb_sym, Hc. cbn [andb]. now rewrite (IH Ht).
Qed.

Lemma after_colon_tag (k : AnalysisKey) (b : string) :
  after_colon (tag_of k ++ b) = inr b.
Proof.
  unfold after_colon.
  destruct k; cbn [tag_of].
  - change ("FRAMEWORKS:" ++ b) with ("FRAMEWORKS" ++ String ":" b).
    now rewrite split1_at_colon.
  - change ("DATABASE:" ++ b) with ("DATABASE" ++ String ":" b).
    now rewrite split1_at_colon.
  - change ("AUTH_METHOD:" ++ b) with ("AUTH_METHOD" ++ String ":" b).
    now rewrite split1_at_colon.
  - change ("HOSTING:" ++ b) with ("HOSTING" ++ String ":" b).
    now rewrite split1_at_colon.
  - change ("KEY_FEATURES:" ++ b) with ("KEY_FEATURES" ++ String ":" b).
    now rewrite split1_at_colon.
Qed.

Lemma tag_drop (k : AnalysisKey) (b : string) :
  drop (String.length (tag_of k)) (tag_of k ++ b) = b.
Proof. destruct k; reflexivity. Qed.

(** The first tag a line starts with decides its branch, and the tags are
    such that a line starts with at most one of them. *)
Lemma parse_line_tagged (k : AnalysisKey) (a : Analysis) (raw : string) :
  startswith (strip raw) (tag_of k) = true ->
  exists a',
    parse_line a raw = inr a' /\
    value_of k a' =
      Some (value_from k (drop (String.length (tag_of k)) (strip raw))) /\
    forall k', k' <> k -> value_of k' a' = value_of k' a.
Proof.
  intros H. apply startswith_iff in H as [b Hb]. unfold parse_line.
  rewrite Hb, tag_drop.
  pose proof (after_colon_tag k b) as Hac.
  destruct k; cbn [tag_of] in *; rewrite ?Hac;
    repeat match goal with
           | |- context [startswith (?t ++ b) ?p] =>
               change (startswith (t ++ b) p) with false
           | |- context [startswith (?t ++ b) ?t] =>
               replace (startswith (t ++ b) t) with true
                 by (symmetry; apply startswith_iff; now exists b)
           end;
    cbv iota; rewrite ?Hac;
    (eexists; split; [reflexivity |]; split; [reflexivity |];
     intros k' Hk; destruct k'; try reflexivity; congruence).
Qed.

Lemma parse_line_untagged (k : AnalysisKey) (a : Analysis) (raw : string) :
  startswith (strip raw) (tag_of k) = false ->
  exists a', parse_line a raw = inr a' /\ value_of k a' = value_of k a.
Proof.
  intros H. unfold parse_line.
  destruct (startswith (strip raw) "FRAMEWORKS:") eqn:E1.
  { destruct (@parse_line_tagged KFrameworks a raw E1) as [a' [Ha [_ Hrest]]].
    unfold parse_line in Ha. cbn [tag_of] in *. rewrite E1 in Ha.
    exists a'. split; [exact Ha |]. apply Hrest. intros ->. cbn in H. congruence. }
  destruct (startswith (strip raw) "DATABASE:") eqn:E2.
  { destruct (@parse_line_tagged KDatabase a raw E2) as [a' [Ha [_ Hrest]]].
    unfold parse_line in Ha. cbn [tag_of] in *. rewrite E1, E2 in Ha.
    exists a'. split; [exact Ha |]. apply Hrest. intros ->. cbn in H. congruence. }
  destruct (startswith (strip raw) "AUTH_METHOD:") eqn:E3.
  { destruct (@parse_line_tagged KAuth a raw E3) as [a' [Ha [_ Hrest]]].
    unfold parse_line in Ha. cbn [tag_of] in *. rewrite E1, E2, E3 in Ha.
    exists a'. split; [exact Ha |]. apply Hrest. intros ->. cbn in H. congruence. }
  destruct (startswith (strip raw) "HOSTING:") eqn:E4.
  { destruct (@parse_line_tagged KHosting a raw E4) as [a' [Ha [_ Hrest]]].
    unfold parse_line in Ha. cbn [tag_of] in *. rewrite E1, E2, E3, E4 in Ha.
    exists a'. split; [exact Ha |]. apply Hrest. intros ->. cbn in H. congruence. }
  destruct (startswith (strip raw) "KEY_FEATURES:") eqn:E5.
  { destruct (@parse_line_tagged KFeatures a raw E5) as [a' [Ha [_ Hrest]]].
    unfold parse_line in Ha. cbn [tag_of] in *. rewrite E1, E2, E3, E4, E5 in Ha.
    exists a'. split; [exact Ha |]. apply Hrest. intros ->. cbn in H. congruence. }
  now exists a.
Qed.

Lemma parse_line_total (a : Analysis) (raw : string) :
  exists a', parse_line a raw = inr a'.
Proof.
  destruct (startswith (strip raw) (tag_of KDatabase)) eqn:E.
  - destruct (@parse_line_tagged KDatabase a raw E) as [a' [Ha _]]. now exists a'.
  - destruct (@parse_line_untagged KDatabase a raw E) as [a' [Ha _]]. now exists a'.
Qed.

Lemma parse_lines_total (ls : list string) (a : Analysis) :
  exists a', parse_lines a ls = inr a'.
Proof.
  revert a; induction ls as [|l ls IH]; intros a; [now exists a |].
  simpl. destruct (parse_line_total a l) as [a' ->]. apply IH.
Qed.

Lemma parse_lines_untagged (k : AnalysisKey) (ls : list string) (a : Analysis) :
  Forall (fun l => startswith (strip l) (tag_of k) = false) ls ->
  exists a', parse_lines a ls = inr a' /\ value_of k a' = value_of k a.
Proof.
  intros H. revert a. induction H as [|l ls Hl Hls IH]; intros a; [now exists a |].
  simpl. destruct (@parse_line_untagged k a l Hl) as [a1 [-> E1]].
  destruct (IH a1) as [a2 [-> E2]]. exists a2. split; [reflexivity | congruence].
Qed.

Lemma parse_lines_app (l1 l2 : list string) (a : Analysis) :
  parse_lines a (l1 ++ l2) =
  match parse_lines a l1 with
  | inr a' => parse_lines a' l2
  | inl e => inl e
  end.
Proof.
  revert a; induction l1 as [|l l1 IH]; intros a; [reflexivity |].
  simpl. destruct (parse_line a l); [reflexivity | apply IH].
Qed.


(** X12.  For each of the five keys, the last line carrying the tag of the
    key decides its value: the text after the tag, stripped, or cut at the
    commas into stripped items for the two list keys; earlier lines with
    the same tag are overwritten, and lines with other tags leave the key
    alone. *)
Theorem analysis_last_tagged_line_wins
        (k : AnalysisKey) (pre : list string) (l : string) (post : list string) :
  Forall (fun x => one_line x = true) (pre ++ l :: post) ->
  startswith (strip l) (tag_of k) = true ->
  Forall (fun x => startswith (strip x) (tag_of k) = false) post ->
  exists a,
    _parse_analysis (text_of (pre ++ l :: post)) = inr a /\
    value_of k a =
      Some (value_from k (drop (String.length (tag_of k)) (strip l))).
Proof.
  intros Hall Htag Hpost. unfold _parse_analysis, text_of.
  rewrite split_on_join.
  - rewrite parse_lines_app.
    destruct (parse_lines_total pre empty) as [a1 ->]. simpl.
    destruct (@parse_line_tagged k a1 l Htag) as [a2 [-> [E2 _]]].
    destruct (@parse_lines_untagged k post a2 Hpost) as [a3 [-> E3]].
    exists a3. split; [reflexivity | congruence].
  - now destruct pre.
  - eapply Forall_impl; [| exact Hall]. intros x. unfold one_line.
    now destruct (mem_char LF x).
Qed.

Lemma analysis_last_tagged_line_wins_witness :
  exists a,
    _parse_analysis (text_of ["DATABASE: mysql"; "FRAMEWORKS: react , node";
                             "DATABASE:  postgres:16 "; "HOSTING: aws"]) = inr a /\
    value_of KDatabase a = Some (Text "postgres:16").
Proof.
  apply (@analysis_last_tagged_line_wins KDatabase
           ["DATABASE: mysql"; "FRAMEWORKS: react , node"]
           "DATABASE:  postgres:16 " ["HOSTING: aws"]).
  - repeat constructor.
  - reflexivity.
  - repeat constructor.
Defined.

(** X13.  A key whose tag starts no line of the response is absent from
    the analysis. *)
Theorem analysis_key_absent_without_tag (k : AnalysisKey) (response : string) :
  Forall (fun x => startswith (strip x) (tag_of k) = false) (split_on LF response) ->
  exists a, _parse_analysis response = inr a /\ value_of k a = None.
Proof.
  intros H. destruct (@parse_lines_untagged k (split_on LF response) empty H)
    as [a [Ha E]].
  exists a. split; [exact Ha |]. rewrite E. now destruct k.
Qed.

Lemma analysis_key_absent_without_tag_witness :
  exists a,
    _parse_analysis (text_of ["FRAMEWORKS: react"; "database: mysql"]) = inr a /\
    value_of KDatabase a = None.
Proof.
  apply (@analysis_key_absent_without_tag KDatabase
           (text_of ["FRAMEWORKS: react"; "database: mysql"])).
  repeat constructor.
Defined.

End AnalysisFacts.

(** ** The command interface *)

Section InterfaceFacts.

Import PyMore CommandInterface MoreNotions.






Lemma split_ws_word (word rest : string) :
  word <> "" -> no_space word = true ->
  split_ws (word ++ String " " rest) = word :: split_ws rest.
Proof.
  induction word as [|c word IH]; intros Hne Hw; [congruence |].
  simpl in Hw. apply andb_true_iff in Hw as [Hc Hword].
  apply negb_true_iff in Hc.
  destruct word as [|c' word].
  - cbn [append]. cbn [split_ws]. rewrite Hc.
    change (is_space " ") with true. cbv iota. reflexivity.
  - assert (is_space c' = false) as Hc'.
    { simpl in Hword. apply andb_true_iff in Hword as [H _].
      now apply negb_true_iff. }
    cbn [append].
    change (split_ws (String c (String c' (word ++ String " " rest))))
      with (if is_space c then split_ws (String c' (word ++ String " " rest))
            else if is_space c'
                 then [String c ""] ++ split_ws (String c' (word ++ String " " rest))
                 else match split_ws (String c' (word ++ String " " rest)) with
                      | [] => [String c ""]
                      | w :: ws => String c w :: ws
                      end)%list.
    rewrite Hc, Hc'.
    change (String c' (word ++ String " " rest))
      with (String c' word ++ String " " rest).
    rewrite IH; [reflexivity | discriminate | exact Hword].
Qed.

(** X15.  The command word is matched without regard to case and the
    arguments are passed on as they were typed: a line made of a word, a
    space and more text is routed by the lower-cased word, to its handler
    with the words of the rest, or to the help when the lower-cased word is
    no command. *)
Theorem command_word_is_case_insensitive (word rest : string) :
  word <> "" -> no_space word = true ->
  _handle_command (word ++ String " " rest) =
  inr match dict_get String.eqb handlers (lower word) with
      | Some h => Call h (split_ws rest)
      | None => ShowHelp
      end.
Proof.
  intros Hne Hw. unfold _handle_command. rewrite split_ws_word by trivial.
  now destruct (dict_get String.eqb handlers (lower word)).
Qed.

Lemma command_word_is_case_insensitive_witness :
  _handle_command "/Review src/Main.py" = inr (Call HandleReview ["src/Main.py"]).
Proof.
  apply (@command_word_is_case_insensitive "/Review" "src/Main.py").
  - discriminate.
  - reflexivity.
Defined.

End InterfaceFacts.

Section TemplateFacts.

Import PyMore CommandInterface.

Lemma key_eqb_eq (a b : option string) : key_eqb a b = true <-> a = b.
Proof.
  destruct a as [x |], b as [y |]; simpl;
    try (split; [discriminate | discriminate]); [| tauto].
  rewrite String.eqb_eq. split; [now intros -> | now intros [= ->]].
Qed.

Lemma key_eqb_refl (a : option string) : key_eqb a a = true.
Proof. now apply key_eqb_eq. Qed.

Lemma dict_get_set_same (T : Templates) (k : option string) (v : Template) :
  dict_get key_eqb (dict_set key_eqb T k v) k = Some v.
Proof.
  induction T as [|[k' v'] T IH]; simpl.
  - now rewrite key_eqb_refl.
  - destruct (key_eqb k' k) eqn:E; simpl; now rewrite E.
Qed.


Lemma dict_del_set_fresh (T : Templates) (k : option string) (v : Template) :
  dict_get key_eqb T k = None ->
  dict_del key_eqb (dict_set key_eqb T k v) k = T.
Proof.
  induction T as [|[k' v'] T IH]; simpl; intros H.
  - now rewrite key_eqb_refl.
  - destruct (key_eqb k' k) eqn:E; [discriminate |]. simpl.
    now rewrite E, IH.
Qed.


(** X17.  Removing a template just added under a new id gives back the
    [TEMPLATES] there were; removing an id that is not there changes
    nothing. *)
Theorem template_add_then_remove
        (ask : string -> option string) (T : Templates) :
  (ask "Enter comma-separated stack (e.g., react,node,express):" <> None ->
   ask "Enter comma-separated features:" <> None ->
   ask "Enter comma-separated directory structure:" <> None ->
   ask "Enter template id to remove:" = ask "Enter new template id:" ->
   dict_get key_eqb T (ask "Enter new template id:") = None ->
   snd (_handle_template ask ["remove"]
          (snd (_handle_template ask ["add"] T))) = T) /\
  (dict_get key_eqb T (ask "Enter template id to remove:") = None ->
   snd (_handle_template ask ["remove"] T) = T).
Proof.
  split.
  - intros H1 H2 H3 Hid Hnew.
    unfold _handle_template.
    cbn [String.eqb Ascii.eqb Bool.eqb]. cbv iota.
    destruct (ask "Enter comma-separated stack (e.g., react,node,express):");
      [| congruence].
    destruct (ask "Enter comma-separated features:"); [| congruence].
    destruct (ask "Enter comma-separated directory structure:"); [| congruence].
    cbn [split_commas snd]. cbv iota. cbn [snd].
    rewrite Hid. unfold dict_has. rewrite dict_get_set_same. cbn [snd].
    now apply dict_del_set_fresh.
  - intros H. unfold _handle_template.
    cbn [String.eqb Ascii.eqb Bool.eqb]. cbv iota.
    unfold dict_has. now rewrite H.
Qed.

End TemplateFacts.

Section FormatterFacts.

Import PyMore ColoredFormatter.

(** X18.  The colour markup is put on a level name at most once: a record
    that goes through the formatter again, as when two handlers share it,
    keeps the level name of the first pass. *)
Theorem format_levelname_idempotent (levelname : string) :
  format_levelname (format_levelname levelname) = format_levelname levelname.
Proof.
  unfold format_levelname at 2. unfold COLORS. cbn [dict_get].
  repeat match goal with
         | |- context [String.eqb ?k levelname] =>
             destruct (String.eqb_spec k levelname) as [<- | _]; [reflexivity |]
         end.
  reflexivity.
Qed.

End FormatterFacts.
